(** * audible-converter: a shallow embedding of [main.js]

    The source file [src/main.js] holds two revisions of the command line
    tool one after the other: an early one (lines 1-345) and the current one
    (lines 347-851); [src/unnamed/part_000] holds an intermediate revision.
    The definitions below follow the current revision; where an earlier
    revision differs in a function the development looks at, it is embedded
    in its own module ([Legacy], [Part000]).

    JavaScript values are modelled as follows: strings as [string], byte
    arrays (Buffers, registry binary values) as [list Z] of byte values, JS
    numbers that hold integers as [Z] or [nat], and JS numbers obtained from
    decimal strings as [Q].  A promise is modelled by the way it settles. *)

From Stdlib Require Import ZArith QArith Qround List Ascii String Bool Lia.
From Stdlib Require Import Numbers.DecimalString.
From Stdlib Require Numbers.DecimalNat Numbers.DecimalFacts.
Import ListNotations.
Open Scope string_scope.

(** ** Promises *)

(** How a (bluebird) promise settles: it stays pending, resolves with a
    value, or rejects with an error whose [message] is given. *)
Inductive promise (A : Type) : Type :=
| Pending : promise A
| Resolved : A -> promise A
| Rejected : string -> promise A.
Arguments Pending {A}.
Arguments Resolved {A} _.
Arguments Rejected {A} _.

(** [p.then(f)]: a rejection or a pending state is passed through. *)
Definition then_ {A B} (p : promise A) (f : A -> promise B) : promise B :=
  match p with
  | Pending => Pending
  | Resolved a => f a
  | Rejected e => Rejected e
  end.

(** ** String helpers of the JavaScript runtime *)

Definition upper_ascii (c : ascii) : ascii :=
  let n := nat_of_ascii c in
  if (97 <=? n)%nat && (n <=? 122)%nat then ascii_of_nat (n - 32) else c.

(** [String.prototype.toUpperCase] on ASCII text. *)
Fixpoint toUpperCase (s : string) : string :=
  match s with
  | EmptyString => EmptyString
  | String c r => String (upper_ascii c) (toUpperCase r)
  end.

(** [s.slice(-k)]: the last [k] characters (all of [s] if it is shorter). *)
Definition slice_last (k : nat) (s : string) : string :=
  substring (length s - k) k s.

(** ** Hexadecimal rendering: [toHex], [bytesToHex], [extractBytes] *)

Definition hex_digit_lower (d : Z) : ascii :=
  match d with
  | 0%Z => "0" | 1%Z => "1" | 2%Z => "2" | 3%Z => "3"
  | 4%Z => "4" | 5%Z => "5" | 6%Z => "6" | 7%Z => "7"
  | 8%Z => "8" | 9%Z => "9" | 10%Z => "a" | 11%Z => "b"
  | 12%Z => "c" | 13%Z => "d" | 14%Z => "e" | _ => "f"
  end.

(** Base-16 digits of a non-negative integer, most significant first; the
    fuel is the number of bits, more than enough digits. *)
Fixpoint hex_digits (fuel : nat) (n : Z) (acc : string) : string :=
  match fuel with
  | O => acc
  | S f =>
      let acc' := String (hex_digit_lower (n mod 16)) acc in
      if (n <? 16)%Z then acc' else hex_digits f (n / 16) acc'
  end.

(** [Number(d).toString(16)] for an integer [d]. *)
Definition number_toString16 (d : Z) : string :=
  if (d <? 0)%Z
  then String "-" (hex_digits (Z.to_nat (Z.log2 (- d)) + 1) (- d) "")
  else hex_digits (Z.to_nat (Z.log2 d) + 1) d "".

(** [toHex = (d) => ('0' + (Number(d).toString(16))).slice(-2).toUpperCase()] *)
Definition toHex (d : Z) : string :=
  toUpperCase (slice_last 2 (String "0" (number_toString16 d))).

(** [bytesToHex = (byteArray) => _.map(byteArray, toHex).join('')] *)
Definition bytesToHex (byteArray : list Z) : string :=
  concat "" (map toHex byteArray).

(** [extractBytes = (byteArray) => bytesToHex(byteArray.slice(0, 4).reverse())] *)
Definition extractBytes (byteArray : list Z) : string :=
  bytesToHex (rev (firstn 4 byteArray)).

(** The decoding the round-trip property refers to (it is not part of the
    program): pairs of hexadecimal digits, either case, back to bytes. *)
Definition hex_value (c : ascii) : option Z :=
  let n := Z.of_nat (nat_of_ascii c) in
  if (48 <=? n)%Z && (n <=? 57)%Z then Some (n - 48)%Z
  else if (65 <=? n)%Z && (n <=? 70)%Z then Some (n - 55)%Z
  else if (97 <=? n)%Z && (n <=? 102)%Z then Some (n - 87)%Z
  else None.

Fixpoint hexToBytes (s : string) : option (list Z) :=
  match s with
  | EmptyString => Some []
  | String a (String b r) =>
      match hex_value a, hex_value b, hexToBytes r with
      | Some x, Some y, Some bs => Some ((16 * x + y)%Z :: bs)
      | _, _, _ => None
      end
  | String _ EmptyString => None
  end.

(** ** Checksum extraction: [fetchChecksum] *)

(** What [open(file, 'r')] followed by a positional [read] meets: the file
    cannot be opened, it opens but the read fails, or it has these bytes. *)
Inductive file_state : Type :=
| OpenFails : string -> file_state
| ReadFails : string -> file_state
| Contents : list Z -> file_state.

(** [fs.read(fd, buffer, 0, length, position)] copies the available bytes
    (at most [length]) from [position] into the start of [buffer]; reading
    past the end of the file copies fewer bytes and is no error. *)
Definition fs_read_into (contents buffer : list Z) (len position : nat) : list Z :=
  let got := firstn len (skipn position contents) in
  List.app got (skipn (List.length got) buffer).

(** [fetchChecksum]: a zero-filled 20-byte Buffer, filled from absolute
    position 653; errors are logged and the buffer is returned anyway. *)
Definition fetchChecksum (file : file_state) : promise (list Z) :=
  let buffer := repeat 0%Z 20 in
  match file with
  | OpenFails _ | ReadFails _ => Resolved buffer
  | Contents bytes => Resolved (fs_read_into bytes buffer 20 653)
  end.

(** ** Progress: [currentTimemarkToPercent] *)

(** [s.split(':')]: the pieces between separators, [[""]] for [""]. *)
Fixpoint split_on (sep : ascii) (s : string) : list string :=
  match s with
  | EmptyString => [EmptyString]
  | String c r =>
      let parts := split_on sep r in
      if Ascii.eqb c sep then EmptyString :: parts
      else match parts with
           | p :: ps => String c p :: ps
           | [] => [String c EmptyString]
           end
  end.

Definition digit_value (c : ascii) : option Z :=
  let n := Z.of_nat (nat_of_ascii c) in
  if (48 <=? n)%Z && (n <=? 57)%Z then Some (n - 48)%Z else None.

(** The longest prefix of decimal digits: its value (accumulated onto
    [acc]), its length (added to [n]) and the rest of the string. *)
Fixpoint read_digits (s : string) (acc : Z) (n : nat) : Z * nat * string :=
  match s with
  | EmptyString => (acc, n, EmptyString)
  | String c r =>
      match digit_value c with
      | Some d => read_digits r (10 * acc + d)%Z (S n)
      | None => (acc, n, s)
      end
  end.

(** [Number(s)] for the strings a timemark piece can be: [""] is 0, a
    decimal literal [digits] or [digits.digits] (either part may be empty,
    not both) is its value; any other string gives [None], i.e. NaN.  The
    value is the exact rational; signs, exponents, surrounding white space
    and hexadecimal literals are not modelled. *)
Definition js_Number (s : string) : option Q :=
  match s with
  | EmptyString => Some 0%Q
  | _ =>
      let '(ip, n1, r) := read_digits s 0 0 in
      match r with
      | EmptyString => if (n1 =? 0)%nat then None else Some (inject_Z ip)
      | String c r' =>
          if Ascii.eqb c "." then
            let '(fp, n2, r2) := read_digits r' 0 0 in
            match r2 with
            | EmptyString =>
                if (n1 + n2 =? 0)%nat then None
                else Some (inject_Z ip + inject_Z fp / inject_Z (10 ^ Z.of_nat n2))%Q
            | _ => None
            end
          else None
      end
  end.

(** [timemark[i]]: the piece at index [i], or [undefined] (NaN as a number). *)
Definition piece_number (pieces : list string) (i : nat) : option Q :=
  match nth_error pieces i with
  | Some p => js_Number p
  | None => None
  end.

(** [currentTimemarkToPercent = (timemark, total) => { timemark = timemark.split(':');
      return Math.floor(((timemark[0] * 3600) + (timemark[1] * 60)
                         + Math.floor(timemark[2])) * 100 / total) }]
    The result is [None] when it is not a finite number (a NaN piece, or
    [total = 0]).  [total] is the integral duration [durationRaw]. *)
Definition currentTimemarkToPercent (timemark : string) (total : Z) : option Z :=
  let pieces := split_on ":" timemark in
  match piece_number pieces 0, piece_number pieces 1, piece_number pieces 2 with
  | Some h, Some m, Some s =>
      if (total =? 0)%Z then None
      else Some (Qfloor ((h * inject_Z 3600 + m * inject_Z 60 + inject_Z (Qfloor s))
                         * inject_Z 100 / inject_Z total))
  | _, _, _ => None
  end.

(** ** Decimal numerals, for the statements about timemarks *)

Definition is_digit (c : ascii) : bool :=
  match digit_value c with Some _ => true | None => false end.

(** A non-empty string of decimal digits. *)
Fixpoint digits_only (s : string) : bool :=
  match s with
  | EmptyString => true
  | String c r => is_digit c && digits_only r
  end.

Definition all_digits (s : string) : bool :=
  match s with EmptyString => false | _ => digits_only s end.

(** The value of a decimal numeral, each digit weighted by its position. *)
Fixpoint decimal_value (s : string) : Z :=
  match s with
  | EmptyString => 0
  | String c r =>
      match digit_value c with
      | Some d => d * 10 ^ Z.of_nat (String.length r) + decimal_value r
      | None => 0
      end
  end%Z.

(** ** Regular expressions used by the program

    JavaScript's [s.match(re)] (no [g] flag) returns the leftmost match; a
    greedy [x+] first takes the longest run and gives characters back one by
    one until the rest of the pattern matches.  The patterns of the program
    all have the shape [literal(group)], and [.pop()] returns the group.  We
    embed them as a literal followed by a matcher for the group, each
    matcher implementing the backtracking order of its group. *)

Definition is_word (c : ascii) : bool :=
  let n := nat_of_ascii c in
  (((48 <=? n) && (n <=? 57)) || ((65 <=? n) && (n <=? 90))
   || ((97 <=? n) && (n <=? 122)) || (n =? 95))%nat.

(** [[\w-]] *)
Definition word_or_dash (c : ascii) : bool := is_word c || Ascii.eqb c "-".

(** [\s] on ASCII: space, tab, line feed, vertical tab, form feed, return. *)
Definition is_space (c : ascii) : bool :=
  let n := nat_of_ascii c in ((n =? 32) || ((9 <=? n) && (n <=? 13)))%nat.

(** [[^&]] *)
Definition not_amp (c : ascii) : bool := negb (Ascii.eqb c "&").

(** [[a-fA-F0-9]] *)
Definition is_hex (c : ascii) : bool :=
  match hex_value c with Some _ => true | None => false end.

(** Number of leading characters satisfying [p]. *)
Fixpoint span (p : ascii -> bool) (s : string) : nat :=
  match s with
  | EmptyString => 0
  | String c r => if p c then S (span p r) else 0
  end.

(** [s] without the literal [lit] in front, if [s] starts with it. *)
Fixpoint strip_literal (lit s : string) : option string :=
  match lit, s with
  | EmptyString, _ => Some s
  | String a lr, String b sr => if Ascii.eqb a b then strip_literal lr sr else None
  | String _ _, EmptyString => None
  end.

(** [(p+q)] at the start of [s]: the run of [p] characters of length
    [k], [k] from the longest down to 1, followed by one [q] character. *)
Fixpoint plus_then_from (q : ascii -> bool) (s : string) (k : nat) : option string :=
  match k with
  | O => None
  | S k' =>
      match get k s with
      | Some c => if q c then Some (substring 0 (S k) s) else plus_then_from q s k'
      | None => plus_then_from q s k'
      end
  end.

Definition plus_then (p q : ascii -> bool) (s : string) : option string :=
  plus_then_from q s (span p s).

(** [(p+)] at the start of [s]. *)
Definition plus (p : ascii -> bool) (s : string) : option string :=
  match span p s with
  | O => None
  | r => Some (substring 0 r s)
  end.

(** [(p{k})] at the start of [s]. *)
Definition exactly (k : nat) (p : ascii -> bool) (s : string) : option string :=
  if (k <=? span p s)%nat then Some (substring 0 k s) else None.

(** The group of the leftmost match of [lit(group)] in [s]. *)
Fixpoint match_group (lit : string) (group : string -> option string) (s : string)
  : option string :=
  match match strip_literal lit s with Some r => group r | None => None end with
  | Some g => Some g
  | None =>
      match s with
      | EmptyString => None
      | String _ r => match_group lit group r
      end
  end.

(** ** License files: [extractDownloadURL] *)

(** What [readFile] yields: an error, or the file's text. *)
Inductive text_file : Type :=
| ReadError : string -> text_file
| Text : string -> text_file.

(** The four fields the code binds ([custId], [productId], [codec], [title]). *)
Record adh_fields := {
  custId : string;
  productId : string;
  codec : string;
  title : string
}.

(** The resolved value of [extractDownloadURL]. *)
Record download_ref := {
  url : string;
  ref_title : string
}.

(** [content.match(re).pop()] where [match] returned [null] throws. *)
Definition pop_error : string := "Cannot read property 'pop' of null".

Definition or_throw (o : option string) (k : string -> promise adh_fields) : promise adh_fields :=
  match o with
  | Some g => k g
  | None => Rejected pop_error
  end.

(** The four [match(...).pop()] bindings of [extractDownloadURL]. *)
Definition parse_adh (content : string) : promise adh_fields :=
  or_throw (match_group "cust_id=" (plus_then word_or_dash not_amp) content) (fun c =>
  or_throw (match_group "product_id=" (plus_then word_or_dash not_amp) content) (fun p =>
  or_throw (match_group "codec=" (plus_then word_or_dash not_amp) content) (fun k =>
  or_throw (match_group "title=" (plus not_amp) content) (fun t =>
  Resolved {| custId := c; productId := p; codec := k; title := t |})))).

Definition download_url (f : adh_fields) : string :=
  "https://cds.audible.de/download?product_id=" ++ productId f
  ++ "&cust_id=" ++ custId f ++ "&codec=" ++ codec f.

Definition extractDownloadURL (adhFile : text_file) : promise download_ref :=
  match adhFile with
  | ReadError e => Rejected e
  | Text content =>
      then_ (parse_adh content) (fun f =>
        Resolved {| url := download_url f; ref_title := title f |})
  end.

(** The revision in [src/unnamed/part_000], whose title pattern is
    [/title=([\w\s-]+[^&])/]. *)
Module Part000.

Definition title_char (c : ascii) : bool := is_word c || is_space c || Ascii.eqb c "-".

Definition parse_adh (content : string) : promise adh_fields :=
  or_throw (match_group "cust_id=" (plus_then word_or_dash not_amp) content) (fun c =>
  or_throw (match_group "product_id=" (plus_then word_or_dash not_amp) content) (fun p =>
  or_throw (match_group "codec=" (plus_then word_or_dash not_amp) content) (fun k =>
  or_throw (match_group "title=" (plus_then title_char not_amp) content) (fun t =>
  Resolved {| custId := c; productId := p; codec := k; title := t |})))).

Definition extractDownloadURL (adhFile : text_file) : promise download_ref :=
  match adhFile with
  | ReadError e => Rejected e
  | Text content =>
      then_ (parse_adh content) (fun f =>
        Resolved {| url := download_url f; ref_title := title f |})
  end.

End Part000.

(** ** Activation bytes: [fetchActivationBytesFromDevices], [fetchActivationBytes] *)

(** The command line options the resolver reads, on a given platform:
    [activationBytes] is [program.activationBytes] ([None] for the default
    [false] or an absent option), [device] is [program.device] (a string, as
    commander passes it). *)
Record options := {
  win32 : bool;
  activationBytes : option string;
  device : option string
}.

(** What [regeditList(AudibleDevicesKey)] gives: the optional dependency is
    missing, the call fails, or the binary values under the key. *)
Inductive registry : Type :=
| RegeditMissing : registry
| RegistryError : string -> registry
| RegistryValues : list (list Z) -> registry.

(** JavaScript truthiness of a string or of [false]/[undefined]. *)
Definition truthy (o : option string) : bool :=
  match o with Some (String _ _) => true | _ => false end.

(** [a ? a : b] for a string-or-false [a]. *)
Definition js_or (a : option string) (b : string) : string :=
  match a with
  | Some s => if truthy a then s else b
  | None => b
  end.

(** The array index a property key denotes: a canonical decimal numeral. *)
Definition canonical_index (k : string) : option nat :=
  if all_digits k then
    match k with
    | String "0" (String _ _) => None
    | _ => Some (Z.to_nat (decimal_value k))
    end
  else None.

(** [String(n)] for a natural number [n]. *)
Definition number_to_string (n : nat) : string :=
  NilZero.string_of_uint (Nat.to_uint n).

(** The JavaScript values the resolver handles: [devices[key]] is a string
    (an entry), a number ([length]), a function or an object inherited
    from the prototypes (truthy, written by the text [String(v)] gives), or
    [undefined]; [program.activationBytes] is a string or [false]. *)
Inductive js_value : Type :=
| JUndefined : js_value
| JFalse : js_value
| JString : string -> js_value
| JNumber : nat -> js_value
| JObject : string -> js_value.

(** [!!v] *)
Definition js_truthy (v : js_value) : bool :=
  match v with
  | JUndefined | JFalse => false
  | JString s => match s with EmptyString => false | _ => true end
  | JNumber n => negb (Nat.eqb n 0)
  | JObject _ => true
  end.

(** [`${v}`] *)
Definition js_render (v : js_value) : string :=
  match v with
  | JUndefined => "undefined"
  | JFalse => "false"
  | JString s => s
  | JNumber n => number_to_string n
  | JObject r => r
  end.

(** [program.activationBytes]: the option's string, or [false]. *)
Definition of_option (a : option string) : js_value :=
  match a with Some s => JString s | None => JFalse end.

Definition native_function (name : string) : js_value :=
  JObject ("function " ++ name ++ "() { [native code] }").

(** The string-keyed properties an array inherits (Node 8): those of
    [Array.prototype], then those of [Object.prototype] it does not shadow.
    [constructor] is [Array]; [__proto__] is [Array.prototype] itself, an
    empty array, written as the empty string. *)
Definition array_proto (k : string) : js_value :=
  if String.eqb k "constructor" then native_function "Array"
  else if String.eqb k "__proto__" then JObject ""
  else if existsb (String.eqb k)
    ["concat"; "copyWithin"; "entries"; "every"; "fill"; "filter"; "find";
     "findIndex"; "forEach"; "includes"; "indexOf"; "join"; "keys";
     "lastIndexOf"; "map"; "pop"; "push"; "reduce"; "reduceRight"; "reverse";
     "shift"; "slice"; "some"; "sort"; "splice"; "toLocaleString"; "toString";
     "unshift"; "values";
     "__defineGetter__"; "__defineSetter__"; "__lookupGetter__";
     "__lookupSetter__"; "hasOwnProperty"; "isPrototypeOf";
     "propertyIsEnumerable"; "valueOf"]
  then native_function k
  else JUndefined.

(** [devices[key]] for an array [devices] of strings and a key [undefined]
    (the property "undefined", absent) or a string: an index, the own
    property [length], or an inherited property. *)
Definition array_get (devices : list string) (key : option string) : js_value :=
  match key with
  | None => JUndefined
  | Some k =>
      match canonical_index k with
      | Some i => match nth_error devices i with Some s => JString s | None => JUndefined end
      | None => if String.eqb k "length" then JNumber (List.length devices) else array_proto k
      end
  end.

Definition sentinel : string := "FFFFFFFF".

Definition regedit_missing_msg : string :=
  "Optional dependency `regedit` is not installed. Try reinstalling audible-converter without ignoring `optionalDependencies`.".

Definition no_bytes_msg : string := "Could not find any Audible Activation Bytes!".

Definition device_not_found_msg (d : string) : string :=
  "Device Nr. " ++ d ++ " not found! Please use the 'list' command to get your devices.".

Definition fetchActivationBytesFromDevices (reg : registry) : promise (list string) :=
  match reg with
  | RegeditMissing => Rejected regedit_missing_msg
  | RegistryError e => Rejected e
  | RegistryValues values =>
      let entries := map extractBytes values in
      let entries := filter (fun n => negb (String.eqb (toUpperCase n) sentinel)) entries in
      if (0 <? List.length entries)%nat then Resolved entries else Rejected no_bytes_msg
  end.

(** The [.then((devices) => ...)] callback shared by both revisions. *)
Definition pick_device (o : options) (devices : list string) : promise js_value :=
  let bytes := js_or (hd_error devices) "" in
  let bytes := js_or (activationBytes o) bytes in
  let picked := array_get devices (device o) in
  let bytes := if js_truthy picked then picked else JString bytes in
  if truthy (device o) && negb (js_truthy picked)
  then Rejected (device_not_found_msg (js_or (device o) ""))
  else Resolved bytes.

(** Current revision: an explicit value, or any platform other than
    Windows, short-cuts the registry. *)
Definition fetchActivationBytes (o : options) (reg : registry) : promise js_value :=
  if negb (win32 o) || truthy (activationBytes o)
  then Resolved (of_option (activationBytes o))
  else then_ (fetchActivationBytesFromDevices reg) (pick_device o).

(** The early revision ([src/main.js], lines 82-101): only a platform other
    than Windows short-cuts the registry. *)
Module Legacy.

Definition fetchActivationBytes (o : options) (reg : registry) : promise js_value :=
  if negb (win32 o)
  then Resolved (of_option (activationBytes o))
  else then_ (fetchActivationBytesFromDevices reg) (pick_device o).

End Legacy.

(** ** The cracker: [rcrack], [lookupChecksum] *)

(** Events of the spawned [rcrack] process, in the order they happen. *)
Inductive child_event : Type :=
| SpawnError : string -> child_event
| StdoutData : string -> child_event
| StderrData : string -> child_event.

(** [rcrack]: the first [error], stdout [data] or stderr [data] event
    settles the promise; without one it stays pending. *)
Definition rcrack (events : list child_event) : promise string :=
  match events with
  | [] => Pending
  | SpawnError e :: _ => Rejected e
  | StdoutData d :: _ => Resolved d
  | StderrData d :: _ => Rejected d
  end.

Definition not_found_msg : string := "Activation Bytes where not found!".

(** [lookupChecksum]: the lines printed on the console and how the
    returned promise settles. *)
Definition lookupChecksum (checksum : string) (events : list child_event)
  : list string * promise unit :=
  let out := ["Looking up activation bytes for checksum: " ++ checksum;
              "This might take a moment ..."] in
  match rcrack events with
  | Pending => (out, Pending)
  | Rejected e => (out, Rejected e)
  | Resolved output =>
      match match_group "hex:" (exactly 8 is_hex) output with
      | None => (out, Rejected not_found_msg)
      | Some h => (List.app out [String.append "Activation Bytes found: " h], Resolved tt)
      end
  end.

(** ** The batch: [main] *)

(** What [main] does that can be observed: calling [converter] on a file,
    a console line, an error logged. *)
Inductive event : Type :=
| Convert : string -> event
| Log : string -> event
| LogError : string -> event.

(** [`Finished converting ${total > 1 ? total : 'one'} Audiobook${total > 1 ? 's' : ''}!`] *)
Definition finished_msg (total : nat) : string :=
  "Finished converting " ++ (if (1 <? total)%nat then number_to_string total else "one")
  ++ " Audiobook" ++ (if (1 <? total)%nat then "s" else "") ++ "!".

(** [Promise.reduce(files, (total, file) => converter(file).then(() =>
      { console.log(''); return ++total }), 0)]: one file after the other;
    [converter] is given by how its promise settles for each file. *)
Fixpoint reduce_files (converter : string -> promise unit) (files : list string)
  (total : nat) : list event * promise nat :=
  match files with
  | [] => ([], Resolved total)
  | file :: rest =>
      match converter file with
      | Pending => ([Convert file], Pending)
      | Rejected e => ([Convert file], Rejected e)
      | Resolved _ =>
          let '(tr, r) := reduce_files converter rest (S total) in
          (Convert file :: Log "" :: tr, r)
      end
  end.

(** [main]: [globbed] is how [globPromise(inputFile, {})] settles. *)
Definition main (converter : string -> promise unit) (globbed : promise (list string))
  : list event :=
  match globbed with
  | Pending => []
  | Rejected e => [LogError e]
  | Resolved files =>
      let '(tr, r) := reduce_files converter files 0 in
      List.app tr (match r with
                   | Pending => []
                   | Resolved total => [Log (finished_msg total)]
                   | Rejected e => [LogError e]
                   end)
  end.

(** ** Metadata: [fetchMetadata] *)

Definition lower_ascii (c : ascii) : ascii :=
  let n := nat_of_ascii c in
  if (65 <=? n)%nat && (n <=? 90)%nat then ascii_of_nat (n + 32) else c.

(** [String.prototype.toLowerCase] on ASCII text. *)
Fixpoint toLowerCase (s : string) : string :=
  match s with
  | EmptyString => EmptyString
  | String c r => String (lower_ascii c) (toLowerCase r)
  end.

Fixpoint trim_start (s : string) : string :=
  match s with
  | EmptyString => EmptyString
  | String c r => if is_space c then trim_start r else s
  end.

Definition string_rev (s : string) : string :=
  string_of_list_ascii (rev (list_ascii_of_string s)).

(** [String.prototype.trim] with ASCII white space. *)
Definition trim (s : string) : string :=
  string_rev (trim_start (string_rev (trim_start s))).

(** [Math.trunc], and [x % y] on numbers ([x - y * trunc(x / y)]). *)
Definition Qtrunc (q : Q) : Z :=
  if Qle_bool 0 q then Qfloor q else Qceiling q.

Definition js_mod (x y : Q) : Q := (x - y * inject_Z (Qtrunc (x / y)))%Q.

(** The decimal rendering of an integral JS number in a template string. *)
Definition int_to_string (z : Z) : string :=
  if (z <? 0)%Z then String "-" (number_to_string (Z.to_nat (- z)))
  else number_to_string (Z.to_nat z).

(** The tags [ffprobe] reports ([undefined] as [None]). *)
Record probe_tags := {
  major_brand : option string;
  artist_tag : option string;
  title_tag : option string;
  date_tag : option string
}.

(** [result.format] of [ffprobe]: its tags ([None] when [format.tags] is
    absent) and its duration in seconds, as an exact number. *)
Record probe_format := {
  format_tags : option probe_tags;
  format_duration : Q
}.

Record metadata := {
  filetype : string;
  artist : string;
  md_title : string;
  date : string;
  duration : string;
  durationRaw : Z;
  checksum : string
}.

(** [tag ? tag.trim() : ''] *)
Definition tag_or_empty (t : option string) : string :=
  if truthy t then trim (js_or t "") else "".

(** [`${Math.floor(d / 3600)}h${Math.floor(d % 3600 / 60)}m${Math.floor(d % 3600 % 60)}s`] *)
Definition duration_string (d : Q) : string :=
  int_to_string (Qfloor (d / inject_Z 3600)) ++ "h"
  ++ int_to_string (Qfloor (js_mod d (inject_Z 3600) / inject_Z 60)) ++ "m"
  ++ int_to_string (Qfloor (js_mod (js_mod d (inject_Z 3600)) (inject_Z 60))) ++ "s".

Definition tags_error : string := "Cannot read property 'major_brand' of undefined".
Definition not_aax_msg : string := "Not a valid AAX File!".

(** The [.spread] callback: the record built from the probe and the
    checksum buffer. *)
Definition build_metadata (fmt : probe_format) (buf : list Z) : promise metadata :=
  match format_tags fmt with
  | None => Rejected tags_error
  | Some tags =>
      Resolved {| filetype := if truthy (major_brand tags)
                              then toLowerCase (trim (js_or (major_brand tags) "")) else "";
                  artist := tag_or_empty (artist_tag tags);
                  md_title := tag_or_empty (title_tag tags);
                  date := tag_or_empty (date_tag tags);
                  duration := duration_string (format_duration fmt);
                  durationRaw := Qfloor (format_duration fmt);
                  checksum := toLowerCase (bytesToHex buf) |}
  end.

(** [fetchMetadata]: [probe] is how [ffprobe(input)] settles, [file] what
    [fetchChecksum(input)] reads; the console line and how it settles. *)
Definition fetchMetadata (probe : promise probe_format) (file : file_state)
  : list string * promise metadata :=
  match probe, fetchChecksum file with
  | Resolved fmt, Resolved buf =>
      match build_metadata fmt buf with
      | Resolved md =>
          ([artist md ++ " - " ++ md_title md ++ " [" ++ date md ++ "] (Duration: "
            ++ duration md ++ ")"],
           if String.eqb (filetype md) "aax" then Resolved md else Rejected not_aax_msg)
      | Rejected e => ([], Rejected e)
      | Pending => ([], Pending)
      end
  | Rejected e, _ => ([], Rejected e)
  | _, Rejected e => ([], Rejected e)
  | _, _ => ([], Pending)
  end.

(** ** One file: [converter] *)

(** The [ffmpeg] runs of [converter]: [convertAudiobook] with the
    activation bytes and the duration, [extractCoverImage], and
    [addLoopedImage] with the duration.  The file names, computed from the
    metadata and the [-p]/[-o] options, are left out. *)
Inductive ffmpeg_step : Type :=
| ConvertAudio : string -> Z -> ffmpeg_step
| ExtractCover : ffmpeg_step
| AddLoop : Z -> ffmpeg_step.

Definition missing_bytes_msg (win : bool) : string :=
  "Please provide activation bytes with -a <bytes>"
  ++ (if win then " or select a device using -d <number>" else "").

(** [converter(inputFile)]: [probe] and [file] are what [fetchMetadata]
    meets, [reg] the device table, [loop] is [program.loop] and [run] how
    each [ffmpeg] run settles.  The result: the console lines of
    [fetchMetadata], the [ffmpeg] runs started, in order, and how the
    returned promise settles. *)
Definition converter (o : options) (loop : bool) (probe : promise probe_format)
  (file : file_state) (reg : registry) (run : ffmpeg_step -> promise unit)
  : list string * list ffmpeg_step * promise unit :=
  let '(lines, m) := fetchMetadata probe file in
  match m with
  | Pending => (lines, [], Pending)
  | Rejected e => (lines, [], Rejected e)
  | Resolved md =>
      let duration := durationRaw md in
      match fetchActivationBytes o reg with
      | Pending => (lines, [], Pending)
      | Rejected e => (lines, [], Rejected e)
      | Resolved bytes =>
          if negb (js_truthy bytes) then (lines, [], Rejected (missing_bytes_msg (win32 o)))
          else
            let s1 := ConvertAudio (js_render bytes) duration in
            match run s1 with
            | Pending => (lines, [s1], Pending)
            | Rejected e => (lines, [s1], Rejected e)
            | Resolved _ =>
                match run ExtractCover with
                | Pending => (lines, [s1; ExtractCover], Pending)
                | Rejected e => (lines, [s1; ExtractCover], Rejected e)
                | Resolved _ =>
                    if loop then (lines, [s1; ExtractCover; AddLoop duration], run (AddLoop duration))
                    else (lines, [s1; ExtractCover], Resolved tt)
                end
            end
      end
  end.

(** [ffmpeg] runs, all of them on the same metadata and bytes, in the order
    [converter] chains them. *)
Definition converter_runs_full (loop : bool) (bytes : string) (d : Z) : list ffmpeg_step :=
  [ConvertAudio bytes d; ExtractCover] ++ (if loop then [AddLoop d] else []).

(** ** The [list] and [lookup] commands *)

(** What a command action prints: a [console.log] line, a [console.error]
    line, or an error message logged by [logger.log('error', err.message)]
    (the [debug] line with the stack is hidden at the default verbosity);
    [LoggedUndefined] is that call when [err.message] is [undefined]. *)
Inductive output : Type :=
| Stdout : string -> output
| Stderr : string -> output
| Logged : string -> output
| LoggedUndefined : output.

Definition list_header : string :=
  "Activation bytes of registered devices:" ++ String (ascii_of_nat 10) "".

(** [_.each(result, (v, k) => console.log(`Device ${k}: ${v}`))] *)
Fixpoint device_lines (k : nat) (devices : list string) : list output :=
  match devices with
  | [] => []
  | v :: vs => Stdout ("Device " ++ number_to_string k ++ ": " ++ v) :: device_lines (S k) vs
  end.

(** The action of the [list] command on platform [platform] ([os.platform()]). *)
Definition list_action (platform : string) (reg : registry) : list output :=
  if negb (String.eqb platform "win32")
  then [Stderr "This command is only available on Windows"]
  else match fetchActivationBytesFromDevices reg with
       | Resolved devices => Stdout list_header :: device_lines 0 devices
       | Rejected e => [Logged e]
       | Pending => []
       end.

(** [lookupChecksum(c).catch(log)]: when [rcrack] rejects on stderr data,
    the rejection value is that Buffer, whose [message] is [undefined]
    ([LoggedUndefined]); the other rejections are errors with a message. *)
Definition crack_and_report (c : string) (events : list child_event) : list output :=
  let '(out, r) := lookupChecksum c events in
  List.app (map Stdout out)
    (match r with
     | Rejected e =>
         [match events with StderrData _ :: _ => LoggedUndefined | _ => Logged e end]
     | _ => []
     end).

(** The action of the [lookup] command: an argument matching
    [/([a-fA-F0-9]{20})/] is taken as the checksum, any other is a file
    whose metadata ([probe], [file]) gives the checksum; [events] are those
    of the cracker. *)
Definition lookup_action (platform arg : string) (probe : promise probe_format)
  (file : file_state) (events : list child_event) : list output :=
  if negb (String.eqb platform "win32" || String.eqb platform "linux")
  then [Stderr "This command is only available on Windows and Linux"]
  else match match_group "" (exactly 20 is_hex) arg with
       | Some _ => crack_and_report arg events
       | None =>
           let '(out, r) := fetchMetadata probe file in
           List.app (map Stdout out)
             (match r with
              | Resolved md => crack_and_report (checksum md) events
              | Rejected e => [Logged e]
              | Pending => []
              end)
       end.

(** The action of the [checksum] command on [inputFile], whose metadata
    comes from [probe] and [file]. *)
Definition checksum_action (inputFile : string) (probe : promise probe_format)
  (file : file_state) : list output :=
  let '(out, r) := fetchMetadata probe file in
  List.app (map Stdout out)
    (match r with
     | Resolved md => [Stdout ("Checksum for " ++ inputFile ++ " is " ++ checksum md)]
     | Rejected e => [Logged e]
     | Pending => []
     end).

(** ** Predicates used in the statements *)

Definition byte_ok (n : Z) : Prop := (0 <= n < 256)%Z.

(** The facts about [toHex] on one byte, as a computable check. *)
Definition toHex_byte_check (n : Z) : bool :=
  match toHex n with
  | String a (String b EmptyString) =>
      match hex_value a, hex_value b with
      | Some x, Some y => (x =? n / 16)%Z && (y =? n mod 16)%Z
                          && Ascii.eqb (upper_ascii a) a && Ascii.eqb (upper_ascii b) b
      | _, _ => false
      end
  | _ => false
  end.

(** [[0-9a-f]] *)
Definition is_lower_hex (c : ascii) : bool :=
  let n := nat_of_ascii c in
  ((48 <=? n)%nat && (n <=? 57)%nat) || ((97 <=? n)%nat && (n <=? 102)%nat).

(** Every character of [s] satisfies [p]. *)
Fixpoint all_chars (p : ascii -> bool) (s : string) : bool :=
  match s with
  | EmptyString => true
  | String c r => p c && all_chars p r
  end.

(** [s] contains "hex:" followed by 8 hexadecimal digits somewhere. *)
Fixpoint contains_marker (s : string) : bool :=
  (String.prefix "hex:" s
   && (String.length (substring 4 8 s) =? 8)%nat && all_chars is_hex (substring 4 8 s))
  || match s with
     | EmptyString => false
     | String _ r => contains_marker r
     end.

(** [lit] occurs somewhere in [s]. *)
Fixpoint occurs (lit s : string) : bool :=
  String.prefix lit s || match s with EmptyString => false | String _ r => occurs lit r end.

(** The positions (counted from [i]) where [lit] occurs in [s]. *)
Fixpoint occ_positions (lit s : string) (i : nat) : list nat :=
  List.app (if String.prefix lit s then [i] else [])
    (match s with EmptyString => [] | String _ r => occ_positions lit r (S i) end).

(** The number of occurrences of [c] in [s]. *)
Fixpoint count_char (c : ascii) (s : string) : nat :=
  match s with
  | EmptyString => 0
  | String a r => (if Ascii.eqb a c then 1 else 0) + count_char c r
  end.

(** Every file of the batch converts. *)
Definition all_convert (converter : string -> promise unit) (files : list string) : Prop :=
  forall f, In f files -> converter f = Resolved tt.

(** What [main] logs for files that all convert: per file a [converter]
    call and an empty line. *)
Definition converted_trace (files : list string) : list event :=
  flat_map (fun f => [Convert f; Log ""]) files.

(** A device table with the sentinel in second position. *)
Definition sample_registry : registry :=
  RegistryValues [[1;2;3;4]; [255;255;255;255]; [0;0;0;1]]%Z.

(** An [ffprobe] result with padded upper-case brand, and a 656-byte file
    with three non-zero bytes at offset 653. *)
Definition sample_probe : probe_format :=
  {| format_tags := Some {| major_brand := Some " AAX "; artist_tag := Some "A";
                            title_tag := Some "T"; date_tag := None |};
     format_duration := 7384 # 1 |}.

Definition sample_file : file_state :=
  Contents (List.app (repeat 0%Z 653) [171; 205; 239]%Z).

(** Options of a run on Linux with [-a 1ceb00da]. *)
Definition sample_options : options :=
  {| win32 := false; activationBytes := Some "1ceb00da"; device := None |}.

(** [ffmpeg] runs where the cover extraction fails. *)
Definition sample_run (s : ffmpeg_step) : promise unit :=
  match s with
  | ExtractCover => Rejected "ffmpeg exited with code 1"
  | _ => Resolved tt
  end.

(** * Properties *)

(** ** Timemarks *)

Lemma digit_not_colon (c : ascii) : is_digit c = true -> Ascii.eqb c ":" = false.
Proof.
  intros H. destruct (Ascii.eqb_spec c ":") as [->|]; [discriminate H | reflexivity].
Qed.

Lemma all_digits_only (s : string) : all_digits s = true -> digits_only s = true.
Proof. destruct s; [discriminate | exact (fun H => H)]. Qed.

Lemma split_on_digits (s : string) : digits_only s = true -> split_on ":" s = [s].
Proof.
  induction s as [|c r IH]; intros H; [reflexivity|].
  simpl in H. apply andb_prop in H as [Hc Hr].
  simpl. rewrite IH by exact Hr. rewrite digit_not_colon by exact Hc. reflexivity.
Qed.

Lemma split_on_app (a b : string) :
  digits_only a = true -> split_on ":" (a ++ String ":" b) = a :: split_on ":" b.
Proof.
  induction a as [|c r IH]; intros H; [reflexivity|].
  simpl in H. apply andb_prop in H as [Hc Hr].
  simpl. rewrite IH by exact Hr. rewrite digit_not_colon by exact Hc. reflexivity.
Qed.

Lemma is_digit_value (c : ascii) : is_digit c = true -> exists d, digit_value c = Some d.
Proof. unfold is_digit. destruct (digit_value c); [eauto | discriminate]. Qed.

Lemma read_digits_all (s : string) (acc : Z) (n : nat) :
  digits_only s = true ->
  read_digits s acc n
  = ((acc * 10 ^ Z.of_nat (String.length s) + decimal_value s)%Z,
     (n + String.length s)%nat, EmptyString).
Proof.
  revert acc n. induction s as [|c r IH]; intros acc n H.
  - simpl. apply pair_equal_spec; split; [apply pair_equal_spec; split|reflexivity];
    [ring | lia].
  - simpl in H. apply andb_prop in H as [Hc Hr].
    destruct (is_digit_value c Hc) as [d Hd].
    cbn [read_digits decimal_value String.length]. rewrite Hd, IH by exact Hr.
    rewrite Nat2Z.inj_succ, Z.pow_succ_r by lia.
    apply pair_equal_spec; split; [apply pair_equal_spec; split|reflexivity];
    [ring | lia].
Qed.

Lemma js_Number_digits (s : string) :
  all_digits s = true -> js_Number s = Some (inject_Z (decimal_value s)).
Proof.
  intros H. pose proof (all_digits_only s H) as Hd.
  destruct s as [|c r]; [discriminate|].
  unfold js_Number. rewrite (read_digits_all (String c r) 0 0 Hd). reflexivity.
Qed.

Lemma Qfloor_integral_div (a b : Z) : (0 < b)%Z ->
  Qfloor ((inject_Z a) / inject_Z b) = (a / b)%Z.
Proof.
  intros Hb. destruct b as [|p|p]; try lia.
  unfold Qfloor, Qdiv, Qmult, Qinv, inject_Z. simpl. rewrite Z.mul_1_r. reflexivity.
Qed.

(** ** Hexadecimal rendering *)

Lemma string_app_nil_r (s : string) : (s ++ "")%string = s.
Proof. induction s as [|c s IH]; simpl; [reflexivity | now rewrite IH]. Qed.

Lemma toHex_byte_check_all :
  forallb toHex_byte_check (map Z.of_nat (seq 0 256)) = true.
Proof. vm_compute. reflexivity. Qed.

Lemma toHex_byte (n : Z) : byte_ok n ->
  exists a b, toHex n = String a (String b EmptyString)
    /\ hex_value a = Some (n / 16)%Z /\ hex_value b = Some (n mod 16)%Z
    /\ upper_ascii a = a /\ upper_ascii b = b.
Proof.
  intros Hn.
  assert (Hc : toHex_byte_check n = true).
  { pose proof toHex_byte_check_all as Hall. rewrite forallb_forall in Hall.
    apply Hall. apply in_map_iff. exists (Z.to_nat n). split.
    - apply Z2Nat.id. unfold byte_ok in Hn. lia.
    - apply in_seq. unfold byte_ok in Hn. lia. }
  unfold toHex_byte_check in Hc.
  destruct (toHex n) as [|a [|b [|c r]]]; try discriminate.
  destruct (hex_value a) as [x|] eqn:Ha; [|discriminate].
  destruct (hex_value b) as [y|] eqn:Hb; [|discriminate].
  repeat rewrite andb_true_iff in Hc. destruct Hc as [[[Hx Hy] Ua] Ub].
  apply Z.eqb_eq in Hx, Hy. apply Ascii.eqb_eq in Ua, Ub. subst x y.
  exists a, b. repeat split; assumption.
Qed.

Lemma bytesToHex_cons (n : Z) (l : list Z) :
  bytesToHex (n :: l) = (toHex n ++ bytesToHex l)%string.
Proof. unfold bytesToHex. simpl. destruct l; simpl; [rewrite string_app_nil_r|]; reflexivity. Qed.

Lemma hexToBytes_bytesToHex (l : list Z) :
  Forall byte_ok l -> hexToBytes (bytesToHex l) = Some l.
Proof.
  induction l as [|n l IH]; intros Hl; [reflexivity|].
  inversion Hl as [|? ? Hn Hrest]; subst.
  destruct (toHex_byte n Hn) as (a & b & Ht & Ha & Hb & _ & _).
  rewrite bytesToHex_cons, Ht. cbn [String.append hexToBytes].
  rewrite Ha, Hb, IH by exact Hrest.
  f_equal. f_equal. pose proof (Z.div_mod n 16). lia.
Qed.

Lemma toUpperCase_app (s t : string) :
  toUpperCase (s ++ t) = (toUpperCase s ++ toUpperCase t)%string.
Proof. induction s as [|c s IH]; simpl; [reflexivity | now rewrite IH]. Qed.

Lemma toUpperCase_bytesToHex (l : list Z) :
  Forall byte_ok l -> toUpperCase (bytesToHex l) = bytesToHex l.
Proof.
  induction l as [|n l IH]; intros Hl; [reflexivity|].
  inversion Hl as [|? ? Hn Hrest]; subst.
  destruct (toHex_byte n Hn) as (a & b & Ht & _ & _ & Ua & Ub).
  rewrite bytesToHex_cons, toUpperCase_app, IH by exact Hrest. rewrite Ht.
  simpl. rewrite Ua, Ub. reflexivity.
Qed.

(** ** Checksum buffer *)

Lemma skipn_repeat_Z (k m : nat) (x : Z) : skipn k (repeat x m) = repeat x (m - k).
Proof.
  revert m. induction k as [|k IH]; intros m; [simpl; now rewrite Nat.sub_0_r|].
  destruct m; [reflexivity|]. simpl. apply IH.
Qed.

Lemma Forall_firstn_Z (P : Z -> Prop) (n : nat) (l : list Z) :
  Forall P l -> Forall P (firstn n l).
Proof.
  rewrite !Forall_forall. intros H x Hx. apply H.
  rewrite <- (firstn_skipn n l). apply in_or_app. now left.
Qed.

(** ** Claims: progress, license file, checksum, hexadecimal round trip *)

(** C2 (as stated, refuted): for timemark "1:02:03" and total 3800 the
    result is not 98, since 3723 * 100 / 3800 = 97.97... *)
Lemma currentTimemarkToPercent_1_02_03_not_98 :
  currentTimemarkToPercent "1:02:03" 3800 <> Some 98%Z.
Proof. vm_compute. discriminate. Qed.

(** C2 (amended): for a timemark H:MM:SS made of decimal numerals and a
    positive total, [currentTimemarkToPercent] returns
    floor((H*3600 + MM*60 + SS) * 100 / total). *)
Theorem currentTimemarkToPercent_hms (H MM SS : string) (total : Z) :
  all_digits H = true -> all_digits MM = true -> all_digits SS = true ->
  (0 < total)%Z ->
  currentTimemarkToPercent (H ++ ":" ++ MM ++ ":" ++ SS) total
  = Some ((decimal_value H * 3600 + decimal_value MM * 60 + decimal_value SS)
          * 100 / total)%Z.
Proof.
  intros HH HM HS Ht. unfold currentTimemarkToPercent. simpl String.append.
  rewrite (split_on_app H), (split_on_app MM), (split_on_digits SS)
    by (apply all_digits_only; assumption).
  unfold piece_number. cbn [nth_error].
  rewrite (js_Number_digits H HH), (js_Number_digits MM HM), (js_Number_digits SS HS).
  rewrite Qfloor_Z.
  destruct (Z.eqb_spec total 0) as [E|_]; [lia|]. f_equal.
  rewrite <- Qfloor_integral_div by exact Ht. apply Qfloor_comp.
  repeat (rewrite inject_Z_plus || rewrite inject_Z_mult). reflexivity.
Qed.

(** Witness of C2: the timemark "1:02:03" with total 3800 gives 97. *)
Lemma currentTimemarkToPercent_hms_witness :
  currentTimemarkToPercent "1:02:03" 3800 = Some 97%Z.
Proof.
  exact (currentTimemarkToPercent_hms "1" "02" "03" 3800 eq_refl eq_refl eq_refl eq_refl).
Defined.

(** C3 (as stated, refuted): the title of the license text is not
    decoded, so it is not "My Book". *)
Lemma parse_adh_title_not_decoded :
  parse_adh "cust_id=AAA&product_id=BBB&codec=C1&title=My+Book"
  <> Resolved {| custId := "AAA"; productId := "BBB"; codec := "C1"; title := "My Book" |}.
Proof. vm_compute. discriminate. Qed.

(** C3 (amended): the license text
    "cust_id=AAA&product_id=BBB&codec=C1&title=My+Book" gives cust_id AAA,
    product_id BBB, codec C1 and title "My+Book" (the '+' kept), and
    [extractDownloadURL] resolves with the download URL built from them and
    that title. *)
Theorem extractDownloadURL_license_example :
  parse_adh "cust_id=AAA&product_id=BBB&codec=C1&title=My+Book"
  = Resolved {| custId := "AAA"; productId := "BBB"; codec := "C1"; title := "My+Book" |}
  /\ extractDownloadURL (Text "cust_id=AAA&product_id=BBB&codec=C1&title=My+Book")
     = Resolved {| url := "https://cds.audible.de/download?product_id=BBB&cust_id=AAA&codec=C1";
                   ref_title := "My+Book" |}.
Proof. split; vm_compute; reflexivity. Qed.

(** The revision in [src/unnamed/part_000] cuts that title to "My+". *)
Lemma Part000_extractDownloadURL_license_example :
  Part000.extractDownloadURL (Text "cust_id=AAA&product_id=BBB&codec=C1&title=My+Book")
  = Resolved {| url := "https://cds.audible.de/download?product_id=BBB&cust_id=AAA&codec=C1";
                ref_title := "My+" |}.
Proof. vm_compute. reflexivity. Qed.

(** C5 (as stated, refuted): a 660-byte file (shorter than 673 bytes) whose
    bytes are all 1 gives a buffer that is not all zero. *)
Lemma fetchChecksum_short_file_not_zero :
  (List.length (repeat 1%Z 660) < 673)%nat
  /\ fetchChecksum (Contents (repeat 1%Z 660)) <> Resolved (repeat 0%Z 20).
Proof. split; [rewrite repeat_length; lia | vm_compute; discriminate]. Qed.

(** C5 (amended): [fetchChecksum] never rejects; it resolves with a 20-byte
    buffer holding the file's bytes from offset 653 (as many as there are,
    at most 20) followed by zeros; the buffer is all zero when the file
    cannot be opened or read, or has at most 653 bytes. *)
Theorem fetchChecksum_buffer (file : file_state) :
  exists buf, fetchChecksum file = Resolved buf
  /\ List.length buf = 20%nat
  /\ (forall bytes, file = Contents bytes ->
        let got := firstn 20 (skipn 653 bytes) in
        buf = List.app got (repeat 0%Z (20 - List.length got)))
  /\ ((forall bytes, file = Contents bytes -> (List.length bytes <= 653)%nat) ->
      buf = repeat 0%Z 20).
Proof.
  destruct file as [e|e|bytes]; cbn [fetchChecksum].
  1,2: exists (repeat 0%Z 20); split; [reflexivity|]; split; [reflexivity|];
    split; [intros; discriminate | intros; reflexivity].
  - eexists. split; [reflexivity|]. unfold fs_read_into.
    pose proof (firstn_le_length 20 (skipn 653 bytes)) as Hle.
    rewrite skipn_repeat_Z. split; [|split].
    + rewrite length_app, repeat_length. lia.
    + intros b E. injection E as <-. reflexivity.
    + intros Hshort. rewrite skipn_all2 by (apply Hshort; reflexivity).
      reflexivity.
Qed.

(** C9 (as stated, refuted): decoding what [extractBytes] renders of
    [1;2;3;4] gives the bytes in reverse order. *)
Lemma extractBytes_roundtrip_reversed :
  hexToBytes (extractBytes [1;2;3;4]%Z) <> Some [1;2;3;4]%Z
  /\ hexToBytes (extractBytes [1;2;3;4]%Z) = Some [4;3;2;1]%Z.
Proof. split; vm_compute; [discriminate | reflexivity]. Qed.

(** C9 (amended): for a byte array of length at least 4, decoding the 8
    hex characters [extractBytes] renders gives its first 4 bytes in
    reverse order, decoding [bytesToHex] of the first 4 bytes gives them
    back in order, and the rendering is already upper case. *)
Theorem extractBytes_hex_roundtrip (bs : list Z) :
  (4 <= List.length bs)%nat -> Forall byte_ok bs ->
  hexToBytes (extractBytes bs) = Some (rev (firstn 4 bs))
  /\ hexToBytes (bytesToHex (firstn 4 bs)) = Some (firstn 4 bs)
  /\ toUpperCase (extractBytes bs) = extractBytes bs.
Proof.
  intros _ Hb.
  pose proof (Forall_firstn_Z byte_ok 4 bs Hb) as H4.
  pose proof (Forall_rev H4) as Hr.
  unfold extractBytes. repeat split.
  - apply hexToBytes_bytesToHex, Hr.
  - apply hexToBytes_bytesToHex, H4.
  - apply toUpperCase_bytesToHex, Hr.
Qed.

(** Witness of C9: the bytes 1, 2, 171, 255, 7. *)
Lemma extractBytes_hex_roundtrip_witness :
  hexToBytes (extractBytes [1;2;171;255;7]%Z) = Some [255;171;2;1]%Z.
Proof.
  refine (proj1 (extractBytes_hex_roundtrip [1;2;171;255;7]%Z _ _)).
  - simpl. lia.
  - repeat constructor; unfold byte_ok; lia.
Defined.

(** ** Activation bytes *)

Lemma js_truthy_of_option (a : option string) : js_truthy (of_option a) = truthy a.
Proof. destruct a as [[|c s]|]; reflexivity. Qed.

Lemma fetchActivationBytes_short_cut (o : options) (reg : registry) :
  truthy (activationBytes o) = true ->
  fetchActivationBytes o reg = Resolved (of_option (activationBytes o)).
Proof.
  intros H. unfold fetchActivationBytes. rewrite H, orb_true_r. reflexivity.
Qed.

Lemma fetchActivationBytes_consult (o : options) (reg : registry) :
  win32 o = true -> truthy (activationBytes o) = false ->
  fetchActivationBytes o reg = then_ (fetchActivationBytesFromDevices reg) (pick_device o).
Proof. intros Hw Ha. unfold fetchActivationBytes. rewrite Hw, Ha. reflexivity. Qed.

Lemma js_or_cases (a : option string) (b : string) :
  js_or a b = b \/ a = Some (js_or a b).
Proof. destruct a as [[|c s]|]; simpl; auto. Qed.

Lemma js_or_falsy (a : option string) (b : string) : truthy a = false -> js_or a b = b.
Proof. intros H. destruct a as [[|c s]|]; simpl in *; congruence. Qed.

Lemma eqb_digit_first (c : ascii) (r n : string) :
  is_digit c = true ->
  match n with String c' _ => is_digit c' = false | EmptyString => True end ->
  String.eqb (String c r) n = false.
Proof.
  intros Hc Hn. destruct n as [|c' n]; [reflexivity|].
  apply String.eqb_neq. intros E. injection E as -> _. congruence.
Qed.

(** No inherited property has a numeral as its name. *)
Lemma array_proto_numeral (c : ascii) (r : string) :
  is_digit c = true -> array_proto (String c r) = JUndefined.
Proof.
  intros Hc. unfold array_proto.
  rewrite !(eqb_digit_first c r) by (assumption || reflexivity).
  replace (existsb _ _) with false; [reflexivity|].
  symmetry. apply Bool.not_true_iff_false. rewrite existsb_exists.
  intros [n [Hin He]]. cbn [In] in Hin.
  repeat (destruct Hin as [<-|Hin];
          [rewrite (eqb_digit_first c r) in He by (assumption || reflexivity); discriminate|]).
  destruct Hin.
Qed.

Lemma canonical_index_value (k : string) (i : nat) :
  canonical_index k = Some i -> i = Z.to_nat (decimal_value k).
Proof.
  unfold canonical_index. destruct (all_digits k); [|discriminate].
  destruct k as [|a t]; [intros H; cbv beta iota in H; injection H as <-; reflexivity|].
  destruct a as [[] [] [] [] [] [] [] []]; destruct t as [|b t];
    intros H; cbv beta iota in H; first [discriminate H | injection H as <-; reflexivity].
Qed.

(** What [devices[key]] can be: an entry, [undefined], [length], or an
    inherited function or object. *)
Lemma array_get_cases (devices : list string) (k : option string) :
  (exists s, array_get devices k = JString s /\ In s devices)
  \/ array_get devices k = JUndefined
  \/ array_get devices k = JNumber (List.length devices)
  \/ array_get devices k = JObject ""
  \/ exists name, array_get devices k = native_function name.
Proof.
  unfold array_get. destruct k as [k|]; [|auto].
  destruct (canonical_index k) as [i|].
  - destruct (nth_error devices i) as [s|] eqn:E; [left; exists s; split; [reflexivity|]|auto].
    eapply nth_error_In. exact E.
  - destruct (String.eqb k "length"); [auto|]. unfold array_proto.
    destruct (String.eqb k "constructor"); [right; right; right; right; eexists; reflexivity|].
    destruct (String.eqb k "__proto__"); [auto|].
    destruct (existsb _ _); [right; right; right; right; eexists; reflexivity|auto].
Qed.

Lemma digit_upper_not_F (c : ascii) : is_digit c = true -> upper_ascii c <> "F"%char.
Proof.
  intros H E. revert H E. destruct c as [[] [] [] [] [] [] [] []]; vm_compute; congruence.
Qed.

(** [String(n)] starts with a decimal digit. *)
Lemma number_to_string_head (n : nat) :
  exists c r, number_to_string n = String c r /\ is_digit c = true.
Proof.
  unfold number_to_string. destruct (Nat.to_uint n); cbn; eexists; eexists; split; reflexivity.
Qed.

Lemma devices_not_sentinel (reg : registry) (devices : list string) :
  fetchActivationBytesFromDevices reg = Resolved devices ->
  Forall (fun d => toUpperCase d <> sentinel) devices.
Proof.
  destruct reg as [|e|values]; simpl; try discriminate.
  destruct (0 <? _)%nat; [|discriminate]. intros E. injection E as <-.
  apply Forall_forall. intros d Hd. apply filter_In in Hd as [_ Hd].
  apply negb_true_iff, String.eqb_neq in Hd. exact Hd.
Qed.

(** The value [pick_device] resolves with: [devices[program.device]] when
    it is truthy, otherwise a table entry, the explicit value, or [""]. *)
Lemma pick_device_value (o : options) (devices : list string) (v : js_value) :
  pick_device o devices = Resolved v ->
  (v = array_get devices (device o) /\ js_truthy v = true)
  \/ exists b, v = JString b /\ (In b devices \/ activationBytes o = Some b \/ b = "").
Proof.
  unfold pick_device.
  destruct (truthy (device o) && _); [discriminate|]. intros E. injection E as <-.
  destruct (js_truthy (array_get devices (device o))) eqn:Ht; [left; auto|right].
  eexists. split; [reflexivity|].
  assert (H0 : In (js_or (hd_error devices) "") devices \/ js_or (hd_error devices) "" = "").
  { destruct (js_or_cases (hd_error devices) "") as [E|E]; [right; exact E|].
    left. revert E. generalize (js_or (hd_error devices) "") as x.
    destruct devices as [|d ds]; intros x E; [discriminate|].
    injection E as <-. now left. }
  destruct (js_or_cases (activationBytes o) (js_or (hd_error devices) "")) as [E2|E2].
  - rewrite E2. destruct H0; auto.
  - auto.
Qed.

(** ** The cracker's output *)

Lemma strip_literal_app (lit s t : string) : strip_literal lit s = Some t -> s = (lit ++ t)%string.
Proof.
  revert s. induction lit as [|a lr IH]; intros s H; simpl in H.
  - now injection H as <-.
  - destruct s as [|b sr]; [discriminate|].
    destruct (Ascii.eqb_spec a b) as [<-|]; [|discriminate].
    simpl. f_equal. now apply IH.
Qed.

Lemma prefix_app (lit t : string) : String.prefix lit (lit ++ t) = true.
Proof.
  induction lit as [|a lr IH]; simpl; [destruct t; reflexivity|].
  destruct (ascii_dec a a) as [_|n]; [exact IH | now elim n].
Qed.

Lemma span_substring (p : ascii -> bool) (k : nat) (t : string) :
  (k <= span p t)%nat ->
  String.length (substring 0 k t) = k /\ all_chars p (substring 0 k t) = true.
Proof.
  revert t. induction k as [|k IH]; intros t Hk; [destruct t; split; reflexivity|].
  destruct t as [|c r]; simpl in Hk; [lia|].
  destruct (p c) eqn:Hc; [|lia].
  destruct (IH r ltac:(lia)) as [Hl Ha]. simpl. rewrite Hl, Hc, Ha. auto.
Qed.

Lemma marker_match_sound (s : string) :
  contains_marker s = false -> match_group "hex:" (exactly 8 is_hex) s = None.
Proof.
  induction s as [|c r IH]; intros H; [reflexivity|].
  cbn [contains_marker] in H. apply orb_false_iff in H as [H0 Hr].
  cbn [match_group].
  destruct (strip_literal "hex:" (String c r)) as [t|] eqn:Es.
  - destruct (exactly 8 is_hex t) as [g|] eqn:Ex.
    + exfalso. apply strip_literal_app in Es. unfold exactly in Ex.
      destruct (Nat.leb_spec 8 (span is_hex t)) as [Hle|]; [|discriminate].
      destruct (span_substring is_hex 8 t Hle) as [Hl Ha].
      rewrite Es in H0. rewrite prefix_app in H0. simpl in H0.
      rewrite Hl, Ha in H0. discriminate.
    + apply IH, Hr.
  - apply IH, Hr.
Qed.

(** ** The batch *)

Lemma reduce_files_all_convert (converter : string -> promise unit)
    (files : list string) (total : nat) :
  all_convert converter files ->
  reduce_files converter files total
  = (converted_trace files, Resolved (total + List.length files)%nat).
Proof.
  revert total. induction files as [|f fs IH]; intros total H.
  - simpl. now rewrite Nat.add_0_r.
  - simpl. rewrite (H f (or_introl eq_refl)).
    rewrite IH by (intros g Hg; apply H; now right).
    unfold converted_trace. simpl. rewrite Nat.add_succ_r. reflexivity.
Qed.

Lemma reduce_files_first_failure (converter : string -> promise unit)
    (pre : list string) (f : string) (rest : list string) (e : string) (total : nat) :
  all_convert converter pre -> converter f = Rejected e ->
  reduce_files converter (List.app pre (f :: rest)) total
  = (List.app (converted_trace pre) [Convert f], Rejected e).
Proof.
  revert total. induction pre as [|g gs IH]; intros total H Hf.
  - simpl. now rewrite Hf.
  - simpl. rewrite (H g (or_introl eq_refl)).
    rewrite IH by (try assumption; intros h Hh; apply H; now right).
    reflexivity.
Qed.

Lemma main_all_convert (converter : string -> promise unit) (files : list string) :
  all_convert converter files ->
  main converter (Resolved files)
  = List.app (converted_trace files) [Log (finished_msg (List.length files))].
Proof.
  intros H. unfold main. rewrite (reduce_files_all_convert converter files 0 H). reflexivity.
Qed.

Lemma main_first_failure (converter : string -> promise unit)
    (pre : list string) (f : string) (rest : list string) (e : string) :
  all_convert converter pre -> converter f = Rejected e ->
  main converter (Resolved (List.app pre (f :: rest)))
  = List.app (converted_trace pre) [Convert f; LogError e].
Proof.
  intros H Hf. unfold main.
  rewrite (reduce_files_first_failure converter pre f rest e 0 H Hf).
  rewrite <- app_assoc. reflexivity.
Qed.

(** ** Claims: resolver, cracker, batch *)

(** C4: when the user supplied an explicit activation secret,
    [fetchActivationBytes] resolves with it, whatever the platform, the
    registry (device table) and the requested device index. *)
Theorem fetchActivationBytes_explicit_wins (o : options) (reg : registry) (a : string) :
  activationBytes o = Some a -> a <> EmptyString ->
  fetchActivationBytes o reg = Resolved (JString a).
Proof.
  intros Ha Hne. rewrite fetchActivationBytes_short_cut; rewrite Ha; [reflexivity|].
  destruct a; [now elim Hne | reflexivity].
Qed.

(** Witness of C4: on Windows, with a non-empty device table and device 0
    requested, the explicit secret 1CEB00DA is returned. *)
Lemma fetchActivationBytes_explicit_wins_witness :
  fetchActivationBytesFromDevices sample_registry = Resolved ["04030201"; "01000000"]
  /\ fetchActivationBytes {| win32 := true; activationBytes := Some "1CEB00DA";
                             device := Some "0" |} sample_registry
     = Resolved (JString "1CEB00DA").
Proof.
  split; [vm_compute; reflexivity|].
  apply (fetchActivationBytes_explicit_wins
           {| win32 := true; activationBytes := Some "1CEB00DA"; device := Some "0" |}
           sample_registry "1CEB00DA"); [reflexivity | discriminate].
Defined.

(** In the early revision ([Legacy]) the requested device overrides the
    explicit secret. *)
Lemma Legacy_device_overrides_explicit :
  Legacy.fetchActivationBytes {| win32 := true; activationBytes := Some "1CEB00DA";
                                 device := Some "0" |} sample_registry
  = Resolved (JString "04030201").
Proof. vm_compute. reflexivity. Qed.

(** C6: the enumerated device list never holds an entry equal (ignoring
    case) to the sentinel FFFFFFFF, and [fetchActivationBytes] resolves
    with the sentinel only when the user passed it as the explicit secret:
    never from the device table. *)
Theorem fetchActivationBytes_no_sentinel :
  (forall reg devices, fetchActivationBytesFromDevices reg = Resolved devices ->
     Forall (fun d => toUpperCase d <> sentinel) devices)
  /\ (forall o reg v, fetchActivationBytes o reg = Resolved v ->
        toUpperCase (js_render v) = sentinel ->
        exists b, v = JString b /\ activationBytes o = Some b).
Proof.
  split; [exact devices_not_sentinel|].
  intros o reg v E Hb. unfold fetchActivationBytes in E.
  destruct (negb (win32 o) || truthy (activationBytes o)).
  - injection E as <-. destruct (activationBytes o) as [a|].
    + exists a. split; reflexivity.
    + vm_compute in Hb. discriminate Hb.
  - destruct (fetchActivationBytesFromDevices reg) as [|devices|e] eqn:Ed;
      simpl in E; try discriminate.
    pose proof (devices_not_sentinel reg devices Ed) as Hall. rewrite Forall_forall in Hall.
    destruct (pick_device_value o devices v E) as [[Hv Ht]|(b & -> & [Hin|[Hab|Hnil]])].
    + destruct (array_get_cases devices (device o))
        as [(b & Hg & Hin)|[Hg|[Hg|[Hg|(name & Hg)]]]]; subst v; rewrite Hg in Hb, Ht.
      * exact (False_ind _ (Hall b Hin Hb)).
      * discriminate Ht.
      * cbn [js_render] in Hb. destruct (number_to_string_head (List.length devices))
          as (c & r & Hs & Hc). rewrite Hs in Hb. cbn [toUpperCase] in Hb.
        injection Hb as Hc' _. exfalso. exact (digit_upper_not_F c Hc Hc').
      * vm_compute in Hb. discriminate Hb.
      * unfold native_function in Hb. cbn [js_render String.append toUpperCase] in Hb.
        vm_compute in Hb. discriminate Hb.
    + exact (False_ind _ (Hall b Hin Hb)).
    + exists b. split; [reflexivity | exact Hab].
    + subst b. vm_compute in Hb. discriminate Hb.
Qed.

(** Witness of C6: the table [sample_registry] holds the sentinel; it is
    left out of the list, and the first remaining entry is resolved. *)
Lemma fetchActivationBytes_no_sentinel_witness :
  fetchActivationBytesFromDevices sample_registry = Resolved ["04030201"; "01000000"]
  /\ Forall (fun d => toUpperCase d <> sentinel) ["04030201"; "01000000"]
  /\ fetchActivationBytes {| win32 := true; activationBytes := None; device := None |}
       sample_registry = Resolved (JString "04030201").
Proof.
  split; [vm_compute; reflexivity|]. split.
  - apply (proj1 fetchActivationBytes_no_sentinel sample_registry). vm_compute. reflexivity.
  - vm_compute. reflexivity.
Defined.

(** C7 (as stated, refuted): on Windows without an explicit secret, with
    device 5 requested and a device table holding only the sentinel, the
    requested index is absent from the (empty) enumerated table, yet
    [fetchActivationBytes] fails with "Could not find any Audible Activation
    Bytes!", not with the device-not-found error. *)
Lemma fetchActivationBytes_sentinel_only_device :
  fetchActivationBytesFromDevices (RegistryValues [[255; 255; 255; 255]]%Z) = Rejected no_bytes_msg
  /\ fetchActivationBytes {| win32 := true; activationBytes := None; device := Some "5" |}
       (RegistryValues [[255; 255; 255; 255]]%Z) = Rejected no_bytes_msg
  /\ no_bytes_msg <> device_not_found_msg "5".
Proof.
  split; [vm_compute; reflexivity|]. split; [vm_compute; reflexivity|].
  unfold no_bytes_msg, device_not_found_msg. cbn. discriminate.
Qed.

(** C7 (amended): when [fetchActivationBytes] consults the device table
    (on Windows, without an explicit secret) and at least one entry besides
    the sentinel remains, a requested device index (a decimal numeral)
    beyond the table makes it fail with "Device Nr. <index> not found! ...";
    when no entry remains, the enumeration's own error is reported
    instead. *)
Theorem fetchActivationBytes_device_not_found :
  (forall o reg devices d,
     win32 o = true -> truthy (activationBytes o) = false ->
     fetchActivationBytesFromDevices reg = Resolved devices ->
     device o = Some d -> all_digits d = true ->
     (List.length devices <= Z.to_nat (decimal_value d))%nat ->
     fetchActivationBytes o reg = Rejected (device_not_found_msg d))
  /\ (forall o reg e,
     win32 o = true -> truthy (activationBytes o) = false ->
     fetchActivationBytesFromDevices reg = Rejected e ->
     fetchActivationBytes o reg = Rejected e).
Proof.
  split.
  - intros o reg devices d Hw Ha Hd Hdev Hdig Hlen.
    rewrite fetchActivationBytes_consult by assumption. rewrite Hd. simpl.
    unfold pick_device. rewrite Hdev.
    destruct d as [|c r]; [discriminate Hdig|].
    assert (Hc : is_digit c = true)
      by (cbn [all_digits digits_only] in Hdig; apply andb_true_iff in Hdig; apply Hdig).
    assert (Hg : array_get devices (Some (String c r)) = JUndefined).
    { cbn [array_get]. destruct (canonical_index (String c r)) as [i|] eqn:Ci.
      - rewrite (canonical_index_value _ _ Ci), (proj2 (nth_error_None _ _) Hlen). reflexivity.
      - rewrite (eqb_digit_first c r "length") by (assumption || reflexivity).
        exact (array_proto_numeral c r Hc). }
    rewrite Hg. reflexivity.
  - intros o reg e Hw Ha He.
    rewrite fetchActivationBytes_consult by assumption. rewrite He. reflexivity.
Qed.

(** Witness of C7: on Windows without an explicit secret, device 5 of the
    two-entry table is not found, and neither is 007; an empty table fails
    first. *)
Lemma fetchActivationBytes_device_not_found_witness :
  fetchActivationBytes {| win32 := true; activationBytes := None; device := Some "5" |}
    sample_registry = Rejected (device_not_found_msg "5")
  /\ fetchActivationBytes {| win32 := true; activationBytes := None; device := Some "007" |}
    sample_registry = Rejected (device_not_found_msg "007")
  /\ fetchActivationBytes {| win32 := true; activationBytes := None; device := Some "5" |}
       (RegistryValues []) = Rejected no_bytes_msg.
Proof.
  split; [|split].
  - apply (proj1 fetchActivationBytes_device_not_found
             {| win32 := true; activationBytes := None; device := Some "5" |}
             sample_registry ["04030201"; "01000000"] "5");
      try reflexivity. vm_compute. lia.
  - apply (proj1 fetchActivationBytes_device_not_found
             {| win32 := true; activationBytes := None; device := Some "007" |}
             sample_registry ["04030201"; "01000000"] "007");
      try reflexivity. vm_compute. lia.
  - apply (proj2 fetchActivationBytes_device_not_found); reflexivity.
Defined.

(** C8: when the first output of the cracker is on standard output and it
    holds no "hex:" followed by 8 hexadecimal digits, [lookupChecksum]
    fails with "Activation Bytes where not found!". *)
Theorem lookupChecksum_not_found (checksum output : string) (rest : list child_event) :
  contains_marker output = false ->
  snd (lookupChecksum checksum (StdoutData output :: rest)) = Rejected not_found_msg.
Proof.
  intros H. unfold lookupChecksum. simpl rcrack. cbv iota beta.
  rewrite (marker_match_sound output H). reflexivity.
Qed.

(** Witness of C8: an output that reports no key found. *)
Lemma lookupChecksum_not_found_witness :
  snd (lookupChecksum "4ce6a0d9e3a0e1fb4e2fb1c7f02d2ec8eb5b80e4"
         [StdoutData "statistics: plaintext not found"])
  = Rejected not_found_msg.
Proof. apply lookupChecksum_not_found. reflexivity. Defined.

(** C1 (as stated, refuted): when the first of two files fails, the second
    is not attempted. *)
Lemma main_stops_after_failure :
  ~ In (Convert "b")
      (main (fun f => if String.eqb f "a" then Rejected "boom" else Resolved tt)
            (Resolved ["a"; "b"])).
Proof. vm_compute. intuition discriminate. Qed.

(** C1 (amended): [main] converts the files one at a time in input order.
    When all convert, it logs the final count, the number of files; when a
    file fails, the files after it are not attempted, its error is logged
    and no count is reported. *)
Theorem main_batch :
  (forall converter files, all_convert converter files ->
     main converter (Resolved files)
     = List.app (converted_trace files) [Log (finished_msg (List.length files))])
  /\ (forall converter pre f rest e,
     all_convert converter pre -> converter f = Rejected e ->
     main converter (Resolved (List.app pre (f :: rest)))
     = List.app (converted_trace pre) [Convert f; LogError e]).
Proof. split; [exact main_all_convert | exact main_first_failure]. Qed.

(** Witness of C1: three files whose second fails. *)
Lemma main_batch_witness :
  main (fun f => if String.eqb f "b" then Rejected "boom" else Resolved tt)
       (Resolved ["a"; "b"; "c"])
  = [Convert "a"; Log ""; Convert "b"; LogError "boom"].
Proof.
  apply (proj2 main_batch _ ["a"] "b" ["c"] "boom").
  - intros g [<-|[]]. reflexivity.
  - reflexivity.
Defined.

(** C10: a total of at most 1 is reported as "one Audiobook", the number is
    shown only above 1; a batch of at most one file that converts, and in
    particular an empty batch, ends with "Finished converting one Audiobook!". *)
Theorem main_finished_message :
  (forall total, (total <= 1)%nat -> finished_msg total = "Finished converting one Audiobook!")
  /\ (forall total, (1 < total)%nat ->
        finished_msg total = "Finished converting " ++ number_to_string total ++ " Audiobooks!")
  /\ (forall converter files, all_convert converter files -> (List.length files <= 1)%nat ->
        last (main converter (Resolved files)) (Log "")
        = Log "Finished converting one Audiobook!")
  /\ (forall converter, main converter (Resolved []) = [Log "Finished converting one Audiobook!"]).
Proof.
  assert (Hone : forall total, (total <= 1)%nat ->
            finished_msg total = "Finished converting one Audiobook!").
  { intros total Ht. unfold finished_msg.
    destruct (Nat.ltb_spec 1 total); [lia | reflexivity]. }
  split; [exact Hone|]. split; [|split].
  - intros total Ht. unfold finished_msg.
    destruct (Nat.ltb_spec 1 total); [reflexivity | lia].
  - intros converter files H Hl. rewrite (main_all_convert converter files H).
    rewrite last_last. now rewrite Hone.
  - intros converter. reflexivity.
Qed.

(** Witness of C10: a single converted file. *)
Lemma main_finished_message_witness :
  last (main (fun _ => Resolved tt) (Resolved ["book.aax"])) (Log "")
  = Log "Finished converting one Audiobook!".
Proof.
  apply (proj1 (proj2 (proj2 main_finished_message)) (fun _ => Resolved tt) ["book.aax"]).
  - intros g _. reflexivity.
  - simpl. lia.
Defined.

(** * Further properties of the program *)

(** ** Numbers: floors of exact quotients *)

Lemma Qfloor_unique (z : Z) (x : Q) :
  inject_Z z <= x -> x < inject_Z (z + 1) -> Qfloor x = z.
Proof.
  intros Hl Hu. apply Z.le_antisymm.
  - assert (Qfloor x < z + 1)%Z; [|lia].
    rewrite Zlt_Qlt. apply Qle_lt_trans with x; [apply Qfloor_le | exact Hu].
  - rewrite <- (Qfloor_Z z) at 1. now apply Qfloor_resp_le.
Qed.

Lemma Qfloor_div_int (x : Q) (k : Z) :
  0 <= x -> (0 < k)%Z -> Qfloor (x / inject_Z k) = (Qfloor x / k)%Z.
Proof.
  intros Hx Hk. set (D := Qfloor x).
  assert (HkQ : 0 < inject_Z k) by (change 0 with (inject_Z 0); rewrite <- Zlt_Qlt; lia).
  pose proof (Z.div_mod D k ltac:(lia)) as Hdm. pose proof (Z.mod_pos_bound D k Hk).
  apply Qfloor_unique.
  - apply Qle_shift_div_l; [exact HkQ|].
    rewrite <- inject_Z_mult. apply Qle_trans with (inject_Z D); [|apply Qfloor_le].
    rewrite <- Zle_Qle. nia.
  - apply Qlt_shift_div_r; [exact HkQ|].
    rewrite <- inject_Z_mult. apply Qlt_le_trans with (inject_Z (D + 1)).
    + apply Qlt_floor.
    + rewrite <- Zle_Qle. nia.
Qed.

Lemma inject_Z_minus (x y : Z) : inject_Z (x - y) = inject_Z x - inject_Z y.
Proof. unfold Z.sub. rewrite inject_Z_plus, inject_Z_opp. reflexivity. Qed.

Lemma Qfloor_sub_int (x : Q) (n : Z) : Qfloor (x - inject_Z n) = (Qfloor x - n)%Z.
Proof.
  apply Qfloor_unique.
  - rewrite inject_Z_minus. apply Qplus_le_compat; [apply Qfloor_le | apply Qle_refl].
  - pose proof (Qlt_floor x) as H. rewrite inject_Z_plus, inject_Z_minus in *.
    apply Qlt_minus_iff in H. apply Qlt_minus_iff.
    setoid_replace (inject_Z (Qfloor x) + - inject_Z n + inject_Z 1 + - (x - inject_Z n))
      with (inject_Z (Qfloor x) + inject_Z 1 + - x) by ring.
    exact H.
Qed.

(** [x % k] for a non-negative [x] and a positive integral [k]: it is
    non-negative and its floor is [floor(x) mod k]. *)
Lemma js_mod_int (x : Q) (k : Z) :
  0 <= x -> (0 < k)%Z ->
  0 <= js_mod x (inject_Z k) /\ Qfloor (js_mod x (inject_Z k)) = (Qfloor x mod k)%Z.
Proof.
  intros Hx Hk.
  assert (HkQ : 0 < inject_Z k) by (change 0 with (inject_Z 0); rewrite <- Zlt_Qlt; lia).
  assert (Hq : 0 <= x / inject_Z k) by (apply Qle_shift_div_l; [exact HkQ | rewrite Qmult_0_l; exact Hx]).
  assert (Ht : Qtrunc (x / inject_Z k) = (Qfloor x / k)%Z).
  { unfold Qtrunc. apply Qle_bool_iff in Hq. rewrite Hq. now apply Qfloor_div_int. }
  unfold js_mod. rewrite Ht, <- inject_Z_mult.
  pose proof (Z.div_mod (Qfloor x) k ltac:(lia)) as Hdm. pose proof (Z.mod_pos_bound (Qfloor x) k Hk).
  split.
  - apply Qle_minus_iff. setoid_replace (x - inject_Z (k * (Qfloor x / k)) + - 0)
      with (x - inject_Z (k * (Qfloor x / k))) by ring.
    apply Qle_trans with (inject_Z (Qfloor x) - inject_Z (k * (Qfloor x / k))).
    + rewrite <- inject_Z_minus. change 0 with (inject_Z 0). rewrite <- Zle_Qle. lia.
    + apply Qplus_le_compat; [apply Qfloor_le | apply Qle_refl].
  - rewrite Qfloor_sub_int. lia.
Qed.

(** ** Metadata: [fetchMetadata] *)

Lemma fetchChecksum_resolved (file : file_state) :
  exists buf, fetchChecksum file = Resolved buf.
Proof. destruct file; eexists; reflexivity. Qed.

Lemma hex_value_lower (c : ascii) : hex_value (lower_ascii c) = hex_value c.
Proof. destruct c as [[] [] [] [] [] [] [] []]; reflexivity. Qed.

Lemma hexToBytes_toLowerCase (s : string) :
  hexToBytes (toLowerCase s) = hexToBytes s.
Proof.
  enough (H : hexToBytes (toLowerCase s) = hexToBytes s
              /\ forall c, hexToBytes (toLowerCase (String c s)) = hexToBytes (String c s))
    by apply H.
  induction s as [|c s [IH1 IH2]].
  - split; [reflexivity | intros c; reflexivity].
  - split; [exact (IH2 c)|].
    intros a. cbn [toLowerCase hexToBytes]. fold (toLowerCase s).
    rewrite !hex_value_lower, IH1. reflexivity.
Qed.

(** The [duration] field of the metadata is [floor(duration)] written as
    hours, minutes below 60 and seconds below 60, for a non-negative
    duration. *)
Theorem duration_string_hms (d : Q) :
  0 <= d ->
  exists h m s,
    duration_string d = (int_to_string h ++ "h" ++ int_to_string m ++ "m"
                         ++ int_to_string s ++ "s")%string
    /\ (0 <= h)%Z /\ (0 <= m < 60)%Z /\ (0 <= s < 60)%Z
    /\ (h * 3600 + m * 60 + s = Qfloor d)%Z.
Proof.
  intros Hd. set (D := Qfloor d).
  assert (HD : (0 <= D)%Z).
  { unfold D. rewrite <- (Qfloor_Z 0). apply Qfloor_resp_le. exact Hd. }
  destruct (js_mod_int d 3600 Hd ltac:(lia)) as [H1 H2].
  destruct (js_mod_int (js_mod d (inject_Z 3600)) 60 H1 ltac:(lia)) as [_ H3].
  exists (D / 3600)%Z, (D mod 3600 / 60)%Z, (D mod 60)%Z.
  split.
  - unfold duration_string.
    rewrite (Qfloor_div_int d 3600 Hd ltac:(lia)).
    rewrite (Qfloor_div_int _ 60 H1 ltac:(lia)), H3, H2.
    fold D. rewrite (Z.mod_mod_divide D 3600 60) by (exists 60%Z; reflexivity).
    reflexivity.
  - pose proof (Z.div_mod D 3600 ltac:(lia)). pose proof (Z.mod_pos_bound D 3600 ltac:(lia)).
    pose proof (Z.div_mod (D mod 3600) 60 ltac:(lia)).
    pose proof (Z.mod_pos_bound (D mod 3600) 60 ltac:(lia)).
    rewrite <- (Z.mod_mod_divide D 3600 60) by (exists 60%Z; reflexivity).
    repeat split; lia.
Qed.

Lemma duration_string_hms_witness :
  exists h m s,
    duration_string (7384 # 1) = (int_to_string h ++ "h" ++ int_to_string m ++ "m"
                                  ++ int_to_string s ++ "s")%string
    /\ (0 <= h)%Z /\ (0 <= m < 60)%Z /\ (0 <= s < 60)%Z
    /\ (h * 3600 + m * 60 + s = Qfloor (7384 # 1))%Z.
Proof. apply duration_string_hms. unfold Qle. simpl. lia. Defined.

(** How [fetchMetadata] settles once [ffprobe] has resolved: without tags it
    rejects with the error of reading [major_brand], printing nothing;
    with tags it prints one line, then resolves with metadata of file type
    "aax" exactly when [major_brand] is present and, trimmed and lower-cased,
    is "aax" (so " AAX " passes), and rejects with "Not a valid AAX File!"
    otherwise. *)
Theorem fetchMetadata_outcome (fmt : probe_format) (file : file_state) :
  match format_tags fmt with
  | None => fetchMetadata (Resolved fmt) file = ([], Rejected tags_error)
  | Some tags =>
      List.length (fst (fetchMetadata (Resolved fmt) file)) = 1%nat
      /\ (if match major_brand tags with
             | Some b => String.eqb (toLowerCase (trim b)) "aax"
             | None => false
             end
          then exists md, snd (fetchMetadata (Resolved fmt) file) = Resolved md
                          /\ filetype md = "aax"
          else snd (fetchMetadata (Resolved fmt) file) = Rejected not_aax_msg)
  end.
Proof.
  destruct (fetchChecksum_resolved file) as [buf Hbuf].
  unfold fetchMetadata. rewrite Hbuf. unfold build_metadata.
  destruct (format_tags fmt) as [tags|]; [|reflexivity].
  cbn [fst snd filetype List.length]. split; [reflexivity|].
  destruct (major_brand tags) as [[|c b]|]; cbn [truthy js_or].
  - reflexivity.
  - destruct (String.eqb (toLowerCase (trim (String c b))) "aax") eqn:E.
    + apply String.eqb_eq in E. eexists. split; [reflexivity|]. exact E.
    + reflexivity.
  - reflexivity.
Qed.

(** The [checksum] field of the metadata decodes, as hexadecimal, to the
    20 bytes [fetchChecksum] read (the file's bytes from offset 653, zero
    padded); when the file cannot be opened or read it is forty "0". *)
Theorem fetchMetadata_checksum (fmt : probe_format) (file : file_state) (md : metadata) :
  snd (fetchMetadata (Resolved fmt) file) = Resolved md ->
  (forall bytes, file = Contents bytes -> Forall byte_ok bytes ->
     let got := firstn 20 (skipn 653 bytes) in
     hexToBytes (checksum md) = Some (List.app got (repeat 0%Z (20 - List.length got))))
  /\ (forall e, file = OpenFails e \/ file = ReadFails e ->
        checksum md = "0000000000000000000000000000000000000000").
Proof.
  intros H. unfold fetchMetadata in H.
  destruct file as [e|e|bytes]; cbn [fetchChecksum] in H; unfold build_metadata in H;
    (destruct (format_tags fmt) as [tags|]; [|discriminate H]);
    cbn [snd filetype] in H;
    (destruct (String.eqb _ "aax"); [|discriminate H]);
    injection H as <-; cbn [checksum].
  1,2: split; [intros ? E; discriminate E | intros; reflexivity].
  split; [|intros e [E|E]; discriminate E].
  intros b E Hok. injection E as <-.
  rewrite hexToBytes_toLowerCase, hexToBytes_bytesToHex.
  - unfold fs_read_into. cbv zeta. fold (repeat 0%Z 20).
    rewrite skipn_repeat_Z. reflexivity.
  - unfold fs_read_into. cbv zeta. fold (repeat 0%Z 20). apply Forall_app. split.
    + apply Forall_firstn_Z. rewrite Forall_forall in *. intros x Hx. apply Hok.
      rewrite <- (firstn_skipn 653 bytes). apply in_or_app. now right.
    + rewrite skipn_repeat_Z. apply Forall_forall. intros x Hx.
      apply repeat_spec in Hx. subst x. unfold byte_ok. lia.
Qed.

Lemma fetchMetadata_checksum_witness :
  exists md,
    snd (fetchMetadata (Resolved sample_probe) sample_file) = Resolved md
    /\ ((forall bytes, sample_file = Contents bytes -> Forall byte_ok bytes ->
          let got := firstn 20 (skipn 653 bytes) in
          hexToBytes (checksum md) = Some (List.app got (repeat 0%Z (20 - List.length got))))
        /\ (forall e, sample_file = OpenFails e \/ sample_file = ReadFails e ->
              checksum md = "0000000000000000000000000000000000000000")).
Proof.
  eexists. split; [reflexivity|].
  apply (fetchMetadata_checksum sample_probe sample_file). reflexivity.
Defined.

(** ** Hexadecimal rendering of arbitrary numbers: [toHex] *)

Lemma string_app_assoc (s t u : string) :
  ((s ++ t) ++ u)%string = (s ++ (t ++ u))%string.
Proof. induction s as [|c s IH]; simpl; [reflexivity | now rewrite IH]. Qed.

Lemma string_length_app (s t : string) :
  length (s ++ t) = (length s + length t)%nat.
Proof. induction s as [|c s IH]; simpl; [reflexivity | now rewrite IH]. Qed.

Lemma substring_app_length (s t : string) (k : nat) :
  substring (length s) k (s ++ t) = substring 0 k t.
Proof. induction s as [|c s IH]; simpl; [reflexivity | exact IH]. Qed.

Lemma slice_last_two (p : string) (a b : ascii) :
  slice_last 2 (p ++ String a (String b EmptyString)) = String a (String b EmptyString).
Proof.
  unfold slice_last. rewrite string_length_app. simpl length.
  replace (length p + 2 - 2)%nat with (length p) by lia.
  rewrite substring_app_length. reflexivity.
Qed.

Lemma hex_digits_suffix (f : nat) (n : Z) (acc : string) :
  exists p, hex_digits f n acc = (p ++ acc)%string.
Proof.
  revert n acc. induction f as [|f IH]; intros n acc; [exists ""; reflexivity|].
  cbn [hex_digits]. destruct (n <? 16)%Z.
  - exists (String (hex_digit_lower (n mod 16)) ""). reflexivity.
  - destruct (IH (n / 16)%Z (String (hex_digit_lower (n mod 16)) acc)) as [p Hp].
    rewrite Hp. exists (p ++ String (hex_digit_lower (n mod 16)) "")%string.
    rewrite string_app_assoc. reflexivity.
Qed.

(** [toHex] of a non-negative integer is the two upper-case hexadecimal
    digits of its low byte: the rendering keeps only the last two digits
    (so [toHex n = toHex (n mod 256)]) and pads a single digit with "0". *)
Theorem toHex_low_byte (n : Z) :
  (0 <= n)%Z ->
  toHex n = toUpperCase (String (hex_digit_lower (n / 16 mod 16))
                                (String (hex_digit_lower (n mod 16)) EmptyString))
  /\ toHex n = toHex (n mod 256).
Proof.
  enough (Hgen : forall m, (0 <= m)%Z ->
    toHex m = toUpperCase (String (hex_digit_lower (m / 16 mod 16))
                                  (String (hex_digit_lower (m mod 16)) EmptyString))).
  { intros Hn. split; [now apply Hgen|].
    rewrite (Hgen n Hn), (Hgen (n mod 256)%Z) by (apply Z.mod_pos_bound; lia).
    rewrite Z.mod_mod_divide by (exists 16%Z; reflexivity).
    rewrite <- (Z.mod_mod_divide (n / 16) 16 16) by (exists 1%Z; reflexivity).
    replace ((n / 16) mod 16)%Z with ((n mod 256) / 16)%Z; [reflexivity|].
    pose proof (Z.div_mod n 256 ltac:(lia)) as Hdm. pose proof (Z.mod_pos_bound n 256 ltac:(lia)).
    set (q := (n / 256)%Z) in *. set (r := (n mod 256)%Z) in *.
    assert (E : (n / 16 = r / 16 + q * 16)%Z).
    { rewrite Hdm. replace (256 * q + r)%Z with (r + (q * 16) * 16)%Z by ring.
      apply Z.div_add. lia. }
    rewrite E, Z.mod_add by lia.
    rewrite Z.mod_small; [reflexivity|].
    split; [apply Z.div_pos; lia | apply Z.div_lt_upper_bound; lia]. }
  intros m Hm. unfold toHex, number_toString16.
  destruct (Z.ltb_spec m 0) as [|_]; [lia|].
  destruct (Z.ltb_spec m 16) as [Hs|Hb].
  - destruct (Z.to_nat (Z.log2 m) + 1)%nat as [|f] eqn:Ef; [lia|].
    cbn [hex_digits]. destruct (Z.ltb_spec m 16) as [_|]; [|lia].
    rewrite (Z.div_small m 16) by lia. rewrite (Z.mod_small m 16) by lia.
    reflexivity.
  - assert (Hl : (4 <= Z.log2 m)%Z) by (change 4%Z with (Z.log2 16); now apply Z.log2_le_mono).
    destruct (Z.to_nat (Z.log2 m) + 1)%nat as [|[|f]] eqn:Ef; [lia|lia|].
    cbn [hex_digits]. destruct (Z.ltb_spec m 16) as [|_]; [lia|].
    destruct (Z.ltb_spec (m / 16) 16) as [Hq|Hq].
    + reflexivity.
    + destruct (hex_digits_suffix f (m / 16 / 16)%Z
                  (String (hex_digit_lower (m / 16 mod 16)) (String (hex_digit_lower (m mod 16)) "")))
        as [p Hp].
      rewrite Hp.
      change (String "0" (p ++ String (hex_digit_lower (m / 16 mod 16)) (String (hex_digit_lower (m mod 16)) "")))
        with ((String "0" p) ++ String (hex_digit_lower (m / 16 mod 16)) (String (hex_digit_lower (m mod 16)) ""))%string.
      rewrite slice_last_two. reflexivity.
Qed.

Lemma toHex_low_byte_witness :
  (0 <= 1000)%Z
  /\ toHex 1000 = toUpperCase (String (hex_digit_lower (1000 / 16 mod 16))
                                 (String (hex_digit_lower (1000 mod 16)) EmptyString))
  /\ toHex 1000 = toHex (1000 mod 256).
Proof. split; [lia | apply toHex_low_byte; lia]. Defined.

(** ** The device table: [fetchActivationBytesFromDevices] *)

Lemma Forall_rev_Z (P : Z -> Prop) (l : list Z) : Forall P l -> Forall P (rev l).
Proof. rewrite !Forall_forall. intros H x Hx. apply H. now apply in_rev. Qed.

Lemma extractBytes_sentinel (v : list Z) :
  Forall byte_ok v ->
  toUpperCase (extractBytes v) = sentinel <-> firstn 4 v = [255; 255; 255; 255]%Z.
Proof.
  intros Hv. unfold extractBytes.
  assert (Hok : Forall byte_ok (rev (firstn 4 v))) by (apply Forall_rev_Z, Forall_firstn_Z, Hv).
  rewrite toUpperCase_bytesToHex by exact Hok. split.
  - intros E. pose proof (hexToBytes_bytesToHex _ Hok) as D. rewrite E in D.
    change (hexToBytes sentinel) with (Some [255; 255; 255; 255]%Z) in D.
    assert (R : rev (firstn 4 v) = [255; 255; 255; 255]%Z) by congruence.
    rewrite <- (rev_involutive (firstn 4 v)), R. reflexivity.
  - intros E. rewrite E. reflexivity.
Qed.

(** With byte values in the registry, the device table lists, in registry
    order, the rendering of every value whose first four bytes are not all
    255; when there is none (no value at all included) it fails with
    "Could not find any Audible Activation Bytes!". *)
Theorem fetchActivationBytesFromDevices_values (values : list (list Z)) :
  Forall (Forall byte_ok) values ->
  fetchActivationBytesFromDevices (RegistryValues values)
  = match filter (fun v => if list_eq_dec Z.eq_dec (firstn 4 v) [255; 255; 255; 255]%Z
                           then false else true) values with
    | [] => Rejected no_bytes_msg
    | kept => Resolved (map extractBytes kept)
    end.
Proof.
  intros Hall.
  assert (E : filter (fun n => negb (String.eqb (toUpperCase n) sentinel)) (map extractBytes values)
              = map extractBytes (filter (fun v => if list_eq_dec Z.eq_dec (firstn 4 v)
                                                     [255; 255; 255; 255]%Z then false else true) values)).
  { induction Hall as [|v vs Hv Hvs IH]; [reflexivity|].
    cbn [map filter]. rewrite IH.
    destruct (list_eq_dec Z.eq_dec (firstn 4 v) [255; 255; 255; 255]%Z) as [Hf|Hf].
    - apply (extractBytes_sentinel v Hv) in Hf. rewrite Hf. reflexivity.
    - destruct (String.eqb_spec (toUpperCase (extractBytes v)) sentinel) as [Hs|Hs].
      + apply (extractBytes_sentinel v Hv) in Hs. contradiction.
      + reflexivity. }
  cbn [fetchActivationBytesFromDevices]. rewrite E.
  destruct (filter _ values) as [|v vs]; reflexivity.
Qed.

Lemma fetchActivationBytesFromDevices_values_witness :
  Forall (Forall byte_ok) [[1;2;3;4]; [255;255;255;255]; [0;0;0;1]]%Z
  /\ fetchActivationBytesFromDevices sample_registry = Resolved ["04030201"; "01000000"].
Proof.
  assert (H : Forall (Forall byte_ok) [[1;2;3;4]; [255;255;255;255]; [0;0;0;1]]%Z)
    by (repeat constructor; unfold byte_ok; lia).
  split; [exact H|].
  exact (fetchActivationBytesFromDevices_values _ H).
Defined.

(** ** Which entry [fetchActivationBytes] picks *)

Lemma devices_nonempty (reg : registry) (devices : list string) :
  fetchActivationBytesFromDevices reg = Resolved devices -> devices <> [].
Proof.
  destruct reg as [|e|values]; cbn [fetchActivationBytesFromDevices]; try discriminate.
  destruct (Nat.ltb_spec 0 (List.length (filter (fun n => negb (String.eqb (toUpperCase n) sentinel))
                                                 (map extractBytes values)))) as [Hl|];
    [|discriminate].
  intros E. injection E as <-. intros Hn. rewrite Hn in Hl. simpl in Hl. lia.
Qed.

(** On Windows without an explicit secret, once the device table is read:
    without a requested device (or an empty one) the first entry is used;
    a requested index that denotes a present, non-empty entry selects that
    entry. *)
Theorem fetchActivationBytes_selected (o : options) (reg : registry) (devices : list string) :
  win32 o = true -> truthy (activationBytes o) = false ->
  fetchActivationBytesFromDevices reg = Resolved devices ->
  (truthy (device o) = false ->
     exists d rest, devices = d :: rest /\ fetchActivationBytes o reg = Resolved (JString d))
  /\ (forall k i s, device o = Some k -> canonical_index k = Some i ->
        nth_error devices i = Some s -> s <> EmptyString ->
        fetchActivationBytes o reg = Resolved (JString s)).
Proof.
  intros Hw Ha Hd.
  rewrite (fetchActivationBytes_consult o reg Hw Ha), Hd. cbn [then_]. unfold pick_device.
  rewrite (js_or_falsy (activationBytes o) _ Ha). split.
  - intros Hdev. destruct devices as [|d rest]; [now elim (devices_nonempty reg [] Hd)|].
    exists d, rest. split; [reflexivity|].
    assert (Hg : array_get (d :: rest) (device o) = JUndefined).
    { destruct (device o) as [[|c k]|]; [reflexivity | discriminate | reflexivity]. }
    rewrite Hg, Hdev. cbn. destruct d; reflexivity.
  - intros k i s Hdev Hi Hs Hne.
    assert (Hg : array_get devices (device o) = JString s)
      by (rewrite Hdev; cbn; now rewrite Hi, Hs).
    rewrite Hg, Hdev. destruct s as [|c s']; [now elim Hne|].
    cbn [js_truthy negb]. rewrite andb_false_r. reflexivity.
Qed.

Lemma fetchActivationBytes_selected_witness :
  fetchActivationBytes {| win32 := true; activationBytes := None; device := None |}
    sample_registry = Resolved (JString "04030201")
  /\ fetchActivationBytes {| win32 := true; activationBytes := None; device := Some "1" |}
       sample_registry = Resolved (JString "01000000").
Proof.
  split.
  - destruct (proj1 (fetchActivationBytes_selected
                       {| win32 := true; activationBytes := None; device := None |}
                       sample_registry ["04030201"; "01000000"]
                       eq_refl eq_refl ltac:(vm_compute; reflexivity)) eq_refl)
      as (d & rest & Hl & Hr).
    injection Hl as <- <-. exact Hr.
  - apply (proj2 (fetchActivationBytes_selected
                    {| win32 := true; activationBytes := None; device := Some "1" |}
                    sample_registry ["04030201"; "01000000"]
                    eq_refl eq_refl ltac:(vm_compute; reflexivity)) "1" 1%nat "01000000");
      try reflexivity. discriminate.
Defined.

(** ** The cracker's answer: [lookupChecksum] *)

Lemma prefix_strip (lit s : string) :
  String.prefix lit s = true -> exists t, strip_literal lit s = Some t /\ s = (lit ++ t)%string.
Proof.
  revert s. induction lit as [|a lr IH]; intros s H.
  - exists s. split; reflexivity.
  - destruct s as [|b sr]; [discriminate|]. simpl in H.
    destruct (ascii_dec a b) as [<-|]; [|discriminate].
    destruct (IH sr H) as [t [Ht Hs]]. exists t. simpl.
    rewrite Ascii.eqb_refl. split; [exact Ht | now rewrite Hs].
Qed.

Lemma span_of_substring (p : ascii -> bool) (k : nat) (t : string) :
  String.length (substring 0 k t) = k -> all_chars p (substring 0 k t) = true ->
  (k <= span p t)%nat.
Proof.
  revert t. induction k as [|k IH]; intros t Hl Ha; [lia|].
  destruct t as [|c r]; [discriminate|]. simpl in Hl, Ha |- *.
  apply andb_true_iff in Ha as [Hc Ha]. rewrite Hc.
  injection Hl as Hl. specialize (IH r Hl Ha). lia.
Qed.

Lemma substring_prefix (k : nat) (t : string) :
  exists post, t = (substring 0 k t ++ post)%string.
Proof.
  revert t. induction k as [|k IH]; intros t.
  - exists t. destruct t; reflexivity.
  - destruct t as [|c r]; [exists ""; reflexivity|].
    destruct (IH r) as [post Hp]. exists post. simpl. now rewrite <- Hp.
Qed.

Lemma match_group_sound (lit : string) (group : string -> option string) (s g : string) :
  match_group lit group s = Some g ->
  exists pre t, s = (pre ++ lit ++ t)%string /\ group t = Some g.
Proof.
  induction s as [|c r IH]; intros H; cbn [match_group] in H.
  - destruct (strip_literal lit "") as [t|] eqn:Es; [|discriminate].
    destruct (group t) as [g'|] eqn:Eg; [|discriminate]. injection H as <-.
    exists "", t. split; [exact (strip_literal_app lit "" t Es) | exact Eg].
  - destruct (strip_literal lit (String c r)) as [t|] eqn:Es.
    + destruct (group t) as [g'|] eqn:Eg.
      * injection H as <-. exists "", t. split; [exact (strip_literal_app _ _ _ Es) | exact Eg].
      * destruct (IH H) as (pre & t' & Hr & Hg). exists (String c pre), t'.
        split; [simpl; now rewrite Hr | exact Hg].
    + destruct (IH H) as (pre & t' & Hr & Hg). exists (String c pre), t'.
      split; [simpl; now rewrite Hr | exact Hg].
Qed.

Lemma marker_match_complete (s : string) :
  contains_marker s = true -> exists h, match_group "hex:" (exactly 8 is_hex) s = Some h.
Proof.
  induction s as [|c r IH]; intros H; [discriminate|].
  cbn [contains_marker] in H. cbn [match_group].
  destruct (String.prefix "hex:" (String c r)
            && (String.length (substring 4 8 (String c r)) =? 8)%nat
            && all_chars is_hex (substring 4 8 (String c r))) eqn:Here.
  - apply andb_true_iff in Here as [Here Ha]. apply andb_true_iff in Here as [Hp Hl].
    apply Nat.eqb_eq in Hl.
    destruct (prefix_strip _ _ Hp) as [t [Hs Ht]]. rewrite Hs.
    rewrite Ht in Hl, Ha.
    pose proof (substring_app_length "hex:" t 8) as E.
    change (String.length "hex:") with 4%nat in E.
    rewrite E in Hl, Ha.
    unfold exactly. rewrite (proj2 (Nat.leb_le _ _) (span_of_substring _ _ _ Hl Ha)).
    eexists. reflexivity.
  - rewrite orb_false_l in H. destruct (IH H) as [h Hh]. rewrite Hh.
    destruct (match strip_literal "hex:" (String c r) with
              | Some t => exactly 8 is_hex t | None => None end); eexists; reflexivity.
Qed.

(** When the cracker's first output holds "hex:" followed by 8 hexadecimal
    digits, [lookupChecksum] resolves and its last console line is
    "Activation Bytes found: " followed by 8 hexadecimal digits that follow
    a "hex:" in that output. *)
Theorem lookupChecksum_found (checksum output : string) (rest : list child_event) :
  contains_marker output = true ->
  exists h, lookupChecksum checksum (StdoutData output :: rest)
            = (["Looking up activation bytes for checksum: " ++ checksum;
                "This might take a moment ...";
                "Activation Bytes found: " ++ h], Resolved tt)
    /\ String.length h = 8%nat /\ all_chars is_hex h = true
    /\ exists pre post, output = (pre ++ "hex:" ++ h ++ post)%string.
Proof.
  intros H. destruct (marker_match_complete output H) as [h Hh].
  exists h. unfold lookupChecksum. cbn [rcrack]. rewrite Hh. split; [reflexivity|].
  destruct (match_group_sound _ _ _ _ Hh) as (pre & t & Ht & Hx).
  unfold exactly in Hx. destruct (Nat.leb_spec 8 (span is_hex t)) as [Hle|]; [|discriminate].
  injection Hx as <-. destruct (span_substring is_hex 8 t Hle) as [Hl Ha].
  split; [exact Hl|]. split; [exact Ha|].
  destruct (substring_prefix 8 t) as [post Hp]. exists pre, post.
  rewrite Ht. f_equal. f_equal. exact Hp.
Qed.

Lemma lookupChecksum_found_witness :
  exists h, lookupChecksum "4ce6a0d9e3a0e1fb4e2fb1c7f02d2ec8eb5b80e4"
              [StdoutData "plaintext of 4ce6a0d9 is hex:1ceb00da"]
            = (["Looking up activation bytes for checksum: "
                ++ "4ce6a0d9e3a0e1fb4e2fb1c7f02d2ec8eb5b80e4";
                "This might take a moment ...";
                "Activation Bytes found: " ++ h], Resolved tt)
    /\ String.length h = 8%nat /\ all_chars is_hex h = true
    /\ exists pre post, "plaintext of 4ce6a0d9 is hex:1ceb00da" = (pre ++ "hex:" ++ h ++ post)%string.
Proof. apply lookupChecksum_found. reflexivity. Defined.

(** ** The [list] command *)

Lemma of_uint_acc_digit (e : Decimal.uint) (k : nat) :
  Nat.of_uint_acc e k = (Nat.of_uint e + k * 10 ^ DecimalNat.Unsigned.usize e)%nat.
Proof. unfold Nat.of_uint. rewrite !DecimalNat.Unsigned.of_uint_acc_spec. lia. Qed.

Lemma string_of_uint_length (e : Decimal.uint) :
  String.length (NilEmpty.string_of_uint e) = DecimalNat.Unsigned.usize e.
Proof. induction e; simpl; congruence. Qed.

Lemma string_of_uint_digits (e : Decimal.uint) :
  digits_only (NilEmpty.string_of_uint e) = true.
Proof. induction e; simpl; auto. Qed.

Lemma string_of_uint_value (e : Decimal.uint) :
  decimal_value (NilEmpty.string_of_uint e) = Z.of_nat (Nat.of_uint e).
Proof.
  induction e as [|e IH|e IH|e IH|e IH|e IH|e IH|e IH|e IH|e IH|e IH]; [reflexivity|..].
  all: cbn [NilEmpty.string_of_uint decimal_value];
    match goal with |- context [digit_value ?c] =>
      let v := eval vm_compute in (digit_value c) in change (digit_value c) with v end;
    cbv iota beta;
    unfold Nat.of_uint; cbn [Nat.of_uint_acc]; rewrite Nat.tail_mul_spec;
    rewrite of_uint_acc_digit; fold (Nat.of_uint e);
    rewrite string_of_uint_length, IH;
    rewrite ?Nat2Z.inj_add, ?Nat2Z.inj_mul, ?Nat2Z.inj_pow;
    replace (Z.of_nat 10) with 10%Z by reflexivity; lia.
Qed.

Lemma to_uint_canonical (n : nat) : Nat.to_uint n = Decimal.unorm (Nat.to_uint n).
Proof. rewrite <- DecimalNat.Unsigned.to_of, DecimalNat.Unsigned.of_to. reflexivity. Qed.

Lemma to_uint_no_leading_zero (k : nat) (e : Decimal.uint) :
  Nat.to_uint k = Decimal.D0 e -> e = Decimal.Nil.
Proof.
  intros Ed. pose proof (to_uint_canonical k) as Hc. rewrite Ed in Hc.
  unfold Decimal.unorm in Hc. rewrite DecimalFacts.nzhead_D0 in Hc.
  destruct (Decimal.nzhead e) as [|x|x|x|x|x|x|x|x|x|x] eqn:Hn.
  1: injection Hc as <-; reflexivity.
  1: exfalso; exact (DecimalFacts.nzhead_nonzero e x Hn).
  all: discriminate Hc.
Qed.

Lemma canonical_index_number_to_string (k : nat) :
  canonical_index (number_to_string k) = Some k.
Proof.
  unfold number_to_string. pose proof (DecimalNat.Unsigned.of_to k) as Hv.
  pose proof (to_uint_no_leading_zero k) as Hz.
  destruct (Nat.to_uint k) as [|e|e|e|e|e|e|e|e|e|e] eqn:Ed.
  1: exfalso; pose proof (to_uint_canonical k) as Hc; rewrite Ed in Hc;
     exact (DecimalFacts.unorm_nonnil Decimal.Nil (eq_sym Hc)).
  1: pose proof (Hz e eq_refl) as He; subst e; rewrite <- Hv; reflexivity.
  all: unfold canonical_index; cbn [NilZero.string_of_uint NilEmpty.string_of_uint all_digits digits_only];
      rewrite string_of_uint_digits;
      match goal with |- context [is_digit ?c] => change (is_digit c) with true end;
      cbv iota beta; cbn [andb];
      rewrite <- Hv; f_equal;
      rewrite <- (Nat2Z.id (Nat.of_uint _)), <- string_of_uint_value; reflexivity.
Qed.

Lemma device_lines_In (devices : list string) (j k : nat) (v : string) :
  nth_error devices k = Some v ->
  In (Stdout ("Device " ++ number_to_string (j + k) ++ ": " ++ v)) (device_lines j devices).
Proof.
  revert j k. induction devices as [|d ds IH]; intros j k H; [destruct k; discriminate|].
  destruct k as [|k]; cbn [nth_error] in H.
  - injection H as <-. left. now rewrite Nat.add_0_r.
  - right. rewrite <- Nat.add_succ_comm. apply IH, H.
Qed.

Lemma fetchActivationBytes_present_device (reg : registry) (devices : list string)
    (k : nat) (v : string) :
  fetchActivationBytesFromDevices reg = Resolved devices ->
  nth_error devices k = Some v -> v <> EmptyString ->
  fetchActivationBytes {| win32 := true; activationBytes := None;
                          device := Some (number_to_string k) |} reg = Resolved (JString v).
Proof.
  intros Hd Hk Hv. unfold fetchActivationBytes. cbn [win32 activationBytes negb truthy orb].
  rewrite Hd. cbn [then_]. unfold pick_device. cbn [device activationBytes].
  assert (Hg : array_get devices (Some (number_to_string k)) = JString v)
    by (cbn [array_get]; now rewrite canonical_index_number_to_string, Hk).
  rewrite Hg. destruct v as [|c r]; [now elim Hv|].
  cbn [js_truthy negb]. rewrite andb_false_r. reflexivity.
Qed.

(** On Windows, the [list] command prints one line "Device k: v" for the
    entry [v] at index [k] of the device table, and passing that [k] with
    [-d] (without [-a]) makes [fetchActivationBytes] resolve with that same
    [v] (when it is not empty). *)
Theorem list_action_devices (reg : registry) (devices : list string) :
  fetchActivationBytesFromDevices reg = Resolved devices ->
  forall k v, nth_error devices k = Some v ->
    In (Stdout ("Device " ++ number_to_string k ++ ": " ++ v)) (list_action "win32" reg)
    /\ (v <> EmptyString ->
        fetchActivationBytes {| win32 := true; activationBytes := None;
                                device := Some (number_to_string k) |} reg
        = Resolved (JString v)).
Proof.
  intros Hd k v Hk. split.
  - unfold list_action. cbn [String.eqb negb]. rewrite Hd. right.
    exact (device_lines_In devices 0 k v Hk).
  - intros Hv. exact (fetchActivationBytes_present_device reg devices k v Hd Hk Hv).
Qed.

Lemma list_action_devices_witness :
  In (Stdout ("Device " ++ number_to_string 1 ++ ": " ++ "01000000"))
     (list_action "win32" sample_registry)
  /\ ("01000000" <> EmptyString ->
      fetchActivationBytes {| win32 := true; activationBytes := None;
                              device := Some (number_to_string 1) |} sample_registry
      = Resolved (JString "01000000")).
Proof.
  apply (list_action_devices sample_registry ["04030201"; "01000000"]);
    vm_compute; reflexivity.
Defined.

(** ** The [lookup] command *)

Lemma match_group_unfold (lit : string) (group : string -> option string) (s : string) :
  match_group lit group s
  = match match strip_literal lit s with Some r => group r | None => None end with
    | Some g => Some g
    | None => match s with EmptyString => None | String _ r => match_group lit group r end
    end.
Proof. destruct s; reflexivity. Qed.

Lemma strip_literal_self (lit t : string) : strip_literal lit (lit ++ t) = Some t.
Proof.
  induction lit as [|a lr IH]; [reflexivity|].
  cbn [String.append strip_literal]. now rewrite Ascii.eqb_refl.
Qed.

Lemma match_group_complete (lit : string) (group : string -> option string)
    (pre t g : string) :
  group t = Some g -> exists g', match_group lit group (pre ++ lit ++ t) = Some g'.
Proof.
  intros Hg. induction pre as [|c p IH].
  - rewrite match_group_unfold. cbn [String.append]. rewrite strip_literal_self, Hg.
    eexists; reflexivity.
  - rewrite match_group_unfold.
    destruct (match strip_literal lit (String c p ++ lit ++ t) with
              | Some r => group r | None => None end) as [g'|].
    + eexists; reflexivity.
    + exact IH.
Qed.

Lemma span_app (p : ascii -> bool) (h post : string) :
  all_chars p h = true -> (String.length h <= span p (h ++ post))%nat.
Proof.
  induction h as [|c h IH]; intros H; [simpl; lia|].
  cbn [all_chars] in H. apply andb_true_iff in H as [Hc H].
  cbn [String.append span String.length]. rewrite Hc. specialize (IH H). lia.
Qed.

(** On Windows or Linux, a [lookup] argument that contains 20 consecutive
    hexadecimal digits is passed whole, as the checksum, to
    [lookupChecksum]: what is printed does not depend on any file of that
    name, which is never probed or read. *)
Theorem lookup_action_checksum_arg (platform arg : string) (probe : promise probe_format)
    (file : file_state) (events : list child_event) :
  (platform = "win32" \/ platform = "linux") ->
  (exists pre h post, arg = (pre ++ h ++ post)%string
                      /\ String.length h = 20%nat /\ all_chars is_hex h = true) ->
  lookup_action platform arg probe file events = crack_and_report arg events.
Proof.
  intros Hp (pre & h & post & Ha & Hl & Hh).
  assert (Hg : exists g, match_group "" (exactly 20 is_hex) arg = Some g).
  { rewrite Ha. apply (match_group_complete "" (exactly 20 is_hex) pre (h ++ post)
                         (substring 0 20 (h ++ post))).
    unfold exactly. rewrite <- Hl at 1. rewrite (proj2 (Nat.leb_le _ _) (span_app _ _ _ Hh)).
    reflexivity. }
  destruct Hg as [g Hg]. unfold lookup_action.
  assert (Hw : (String.eqb platform "win32" || String.eqb platform "linux")%bool = true)
    by (destruct Hp as [-> | ->]; reflexivity).
  rewrite Hw, Hg. reflexivity.
Qed.

Lemma lookup_action_checksum_arg_witness :
  lookup_action "linux" "./1ceb00da1ceb00da1ceb00da.aax" Pending (OpenFails "ENOENT")
    [StdoutData "hex:1ceb00da"]
  = crack_and_report "./1ceb00da1ceb00da1ceb00da.aax" [StdoutData "hex:1ceb00da"].
Proof.
  apply lookup_action_checksum_arg; [now right|].
  exists "./", "1ceb00da1ceb00da1ceb", "00da.aax". split; [reflexivity|]. split; reflexivity.
Defined.

(** ** License files: missing keys and field values *)

Lemma string_app_cancel_l (p s t : string) : (p ++ s)%string = (p ++ t)%string -> s = t.
Proof. induction p as [|c p IH]; simpl; [auto | intros H; injection H; auto]. Qed.

Lemma occurs_app (lit pre post : string) : occurs lit (pre ++ lit ++ post) = true.
Proof.
  induction pre as [|c pre IH].
  - assert (U : forall s, occurs lit s
                 = (String.prefix lit s
                    || match s with EmptyString => false | String _ r => occurs lit r end)%bool)
      by (intros s; destruct s; reflexivity).
    rewrite U. cbn [String.append]. now rewrite prefix_app.
  - cbn [String.append occurs]. rewrite IH. apply orb_true_r.
Qed.

Lemma match_group_absent (lit : string) (group : string -> option string) (s : string) :
  (forall pre post, s <> (pre ++ lit ++ post)%string) -> match_group lit group s = None.
Proof.
  intros H. destruct (match_group lit group s) as [g|] eqn:E; [|reflexivity].
  destruct (match_group_sound _ _ _ _ E) as (pre & t & Hs & _). now elim (H pre t).
Qed.

(** When [lit] occurs in [pre ++ lit ++ t] only after [pre], the search
    gives what the group gives at [t]. *)
Lemma match_group_unique (lit : string) (group : string -> option string) (pre t : string) :
  lit <> EmptyString ->
  (forall a b, (pre ++ lit ++ t)%string = (a ++ lit ++ b)%string -> a = pre) ->
  match_group lit group (pre ++ lit ++ t) = group t.
Proof.
  intros Hne. induction pre as [|c p IH]; intros Hu.
  - rewrite match_group_unfold. cbn [String.append]. rewrite strip_literal_self.
    destruct (group t) as [g|] eqn:Hg; [reflexivity|].
    destruct lit as [|a lr]; [now elim Hne|]. cbn [String.append].
    apply match_group_absent. intros x y E.
    specialize (Hu (String a x) y). cbn [String.append] in Hu.
    rewrite E in Hu. specialize (Hu eq_refl). discriminate Hu.
  - rewrite match_group_unfold.
    destruct (strip_literal lit (String c p ++ lit ++ t)) as [r|] eqn:Es.
    + apply strip_literal_app in Es. specialize (Hu "" r). cbn [String.append] in Hu.
      rewrite <- Es in Hu. specialize (Hu eq_refl). discriminate Hu.
    + cbn [String.append]. apply IH. intros a b E.
      specialize (Hu (String c a) b). cbn [String.append] in Hu. rewrite E in Hu.
      specialize (Hu eq_refl). now injection Hu.
Qed.

Lemma span_stop (p : ascii -> bool) (v r : string) (c : ascii) :
  all_chars p v = true -> p c = false -> span p (v ++ String c r) = String.length v.
Proof.
  induction v as [|x v IH]; intros Hv Hc; cbn [String.append span String.length].
  - now rewrite Hc.
  - cbn [all_chars] in Hv. apply andb_true_iff in Hv as [Hx Hv]. rewrite Hx. f_equal. auto.
Qed.

Lemma get_app_length (v r : string) (c : ascii) : get (String.length v) (v ++ String c r) = Some c.
Proof. induction v as [|x v IH]; [reflexivity | exact IH]. Qed.

Lemma get_app_lt (i : nat) (v w : string) :
  (i < String.length v)%nat -> get i (v ++ w) = get i v.
Proof.
  revert i. induction v as [|x v IH]; intros i Hi; [simpl in Hi; lia|].
  destruct i as [|i]; [reflexivity|]. cbn [String.append get]. apply IH. simpl in Hi. lia.
Qed.

Lemma substring_app_prefix (v w : string) : substring 0 (String.length v) (v ++ w) = v.
Proof. induction v as [|x v IH]; [destruct w; reflexivity | simpl; now rewrite IH]. Qed.

Lemma all_chars_get (p : ascii -> bool) (v : string) (i : nat) (c : ascii) :
  all_chars p v = true -> get i v = Some c -> p c = true.
Proof.
  revert i. induction v as [|x v IH]; intros i Hv Hg; [destruct i; discriminate|].
  cbn [all_chars] in Hv. apply andb_true_iff in Hv as [Hx Hv].
  destruct i as [|i]; cbn [get] in Hg; [injection Hg as <-; exact Hx | exact (IH i Hv Hg)].
Qed.

Lemma get_in_range (i : nat) (v : string) : (i < String.length v)%nat -> exists c, get i v = Some c.
Proof.
  revert i. induction v as [|x v IH]; intros i Hi; [simpl in Hi; lia|].
  destruct i as [|i]; [eexists; reflexivity|]. apply IH. simpl in Hi. lia.
Qed.

Lemma word_or_dash_not_amp (c : ascii) : word_or_dash c = true -> not_amp c = true.
Proof.
  unfold not_amp. destruct (Ascii.eqb_spec c "&") as [->|]; [discriminate | reflexivity].
Qed.

(** [([\w-]+[^&])] on a run [v] of [[\w-]] characters followed by "&":
    the whole run when it has at least two characters, no match when it has
    one. *)
Lemma plus_then_field (v rest : string) :
  all_chars word_or_dash v = true ->
  ((2 <= String.length v)%nat -> plus_then word_or_dash not_amp (v ++ String "&" rest) = Some v)
  /\ (String.length v = 1%nat -> plus_then word_or_dash not_amp (v ++ String "&" rest) = None).
Proof.
  intros Hv. unfold plus_then. rewrite (span_stop word_or_dash v rest "&" Hv eq_refl).
  destruct (String.length v) as [|n] eqn:Hl; [split; intros; lia|].
  cbn [plus_then_from]. rewrite <- Hl, get_app_length. cbn [not_amp Ascii.eqb negb]. rewrite Hl.
  split.
  - intros Hn. destruct n as [|m]; [lia|]. cbn [plus_then_from].
    destruct (get_in_range (S m) v ltac:(lia)) as [c Hc].
    rewrite get_app_lt by lia. rewrite Hc.
    rewrite (word_or_dash_not_amp c (all_chars_get _ _ _ _ Hv Hc)).
    rewrite <- Hl. now rewrite substring_app_prefix.
  - intros Hn. injection Hn as ->. reflexivity.
Qed.

Lemma parse_adh_fails (content : string) :
  match_group "cust_id=" (plus_then word_or_dash not_amp) content = None
  \/ match_group "product_id=" (plus_then word_or_dash not_amp) content = None
  \/ match_group "codec=" (plus_then word_or_dash not_amp) content = None
  \/ match_group "title=" (plus not_amp) content = None ->
  extractDownloadURL (Text content) = Rejected pop_error.
Proof.
  intros H. unfold extractDownloadURL, parse_adh.
  destruct (match_group "cust_id=" _ content) eqn:E1;
  destruct (match_group "product_id=" _ content) eqn:E2;
  destruct (match_group "codec=" _ content) eqn:E3;
  destruct (match_group "title=" _ content) eqn:E4;
  try reflexivity.
  exfalso. intuition discriminate.
Qed.

(** When one of the keys "cust_id=", "product_id=", "codec=", "title=" does
    not occur in the license text, [extractDownloadURL] rejects (the
    [.pop()] of a failed match throws). *)
Theorem extractDownloadURL_missing_key (content key : string) :
  In key ["cust_id="; "product_id="; "codec="; "title="] ->
  (forall pre post, content <> (pre ++ key ++ post)%string) ->
  extractDownloadURL (Text content) = Rejected pop_error.
Proof.
  intros Hk Ha. apply parse_adh_fails.
  destruct Hk as [<-|[<-|[<-|[<-|[]]]]];
    [left | right; left | right; right; left | right; right; right];
    now apply match_group_absent.
Qed.

Lemma extractDownloadURL_missing_key_witness :
  extractDownloadURL (Text "cust_id=AAA&product_id=BBB&title=My+Book") = Rejected pop_error.
Proof.
  apply (extractDownloadURL_missing_key _ "codec="); [simpl; tauto|].
  intros pre post E.
  pose proof (occurs_app "codec=" pre post) as H. rewrite <- E in H.
  vm_compute in H. discriminate H.
Defined.

Lemma occ_positions_app (lit a b : string) (i : nat) :
  In (i + String.length a)%nat (occ_positions lit (a ++ lit ++ b) i).
Proof.
  revert i. induction a as [|c a IH]; intros i.
  - assert (U : forall s j, occ_positions lit s j
                 = List.app (if String.prefix lit s then [j] else [])
                     (match s with EmptyString => [] | String _ r => occ_positions lit r (S j) end))
      by (intros s j; destruct s; reflexivity).
    rewrite U. cbn [String.append]. rewrite prefix_app. left. simpl. lia.
  - cbn [String.append occ_positions String.length]. apply in_or_app. right.
    replace (i + S (String.length a))%nat with (S i + String.length a)%nat by lia. apply IH.
Qed.

Lemma unique_by_positions (lit pre t : string) :
  occ_positions lit (pre ++ lit ++ t) 0 = [String.length pre] ->
  forall a b, (pre ++ lit ++ t)%string = (a ++ lit ++ b)%string -> a = pre.
Proof.
  intros Hp a b E. pose proof (occ_positions_app lit a b 0) as Ha.
  rewrite <- E, Hp in Ha. destruct Ha as [Ha|[]]. simpl in Ha.
  rewrite <- (substring_app_prefix a (lit ++ b)), <- (substring_app_prefix pre (lit ++ t)).
  rewrite E, Ha. reflexivity.
Qed.

(** For the keys "cust_id=", "product_id=" and "codec=" (pattern
    [key([\w-]+[^&])]), occurring once, followed by a run [v] of [[\w-]]
    characters and "&": a run of two or more characters is read whole; a
    one-character run is not matched, and [extractDownloadURL] rejects. *)
Theorem adh_field_value (key pre v rest : string) :
  In key ["cust_id="; "product_id="; "codec="] ->
  (forall a b, (pre ++ key ++ v ++ String "&" rest)%string = (a ++ key ++ b)%string -> a = pre) ->
  all_chars word_or_dash v = true ->
  ((2 <= String.length v)%nat ->
     match_group key (plus_then word_or_dash not_amp) (pre ++ key ++ v ++ String "&" rest)
     = Some v)
  /\ (String.length v = 1%nat ->
      extractDownloadURL (Text (pre ++ key ++ v ++ String "&" rest)) = Rejected pop_error).
Proof.
  intros Hk Hu Hv.
  assert (Hne : key <> EmptyString) by (destruct Hk as [<-|[<-|[<-|[]]]]; discriminate).
  assert (Hm : match_group key (plus_then word_or_dash not_amp) (pre ++ key ++ v ++ String "&" rest)
               = plus_then word_or_dash not_amp (v ++ String "&" rest))
    by (apply match_group_unique; assumption).
  destruct (plus_then_field v rest Hv) as [H2 H1].
  split.
  - intros Hl. rewrite Hm. exact (H2 Hl).
  - intros Hl. apply parse_adh_fails.
    destruct Hk as [<-|[<-|[<-|[]]]];
      [left | right; left | right; right; left]; rewrite Hm; exact (H1 Hl).
Qed.

Lemma adh_field_value_witness :
  ((2 <= String.length "C1")%nat ->
     match_group "codec=" (plus_then word_or_dash not_amp)
       ("cust_id=A&product_id=BBB&" ++ "codec=" ++ "C1" ++ String "&" "title=T")
     = Some "C1")
  /\ (String.length "C1" = 1%nat ->
      extractDownloadURL (Text ("cust_id=A&product_id=BBB&" ++ "codec=" ++ "C1" ++ String "&" "title=T"))
      = Rejected pop_error).
Proof.
  apply adh_field_value; [simpl; tauto | | reflexivity].
  apply unique_by_positions. vm_compute. reflexivity.
Defined.

(** ** Progress: fractional seconds and short timemarks *)

Lemma read_digits_stop (a r : string) (c : ascii) (acc : Z) (n : nat) :
  digits_only a = true -> digit_value c = None ->
  read_digits (a ++ String c r) acc n
  = ((acc * 10 ^ Z.of_nat (String.length a) + decimal_value a)%Z,
     (n + String.length a)%nat, String c r).
Proof.
  revert acc n. induction a as [|x a IH]; intros acc n Ha Hc.
  - cbn [String.append read_digits]. rewrite Hc. simpl.
    apply pair_equal_spec; split; [apply pair_equal_spec; split|reflexivity]; [ring | lia].
  - simpl in Ha. apply andb_prop in Ha as [Hx Ha].
    destruct (is_digit_value x Hx) as [d Hd].
    cbn [String.append read_digits decimal_value String.length]. rewrite Hd, IH by assumption.
    rewrite Nat2Z.inj_succ, Z.pow_succ_r by lia.
    apply pair_equal_spec; split; [apply pair_equal_spec; split|reflexivity]; [ring | lia].
Qed.

Lemma decimal_value_bound (s : string) :
  digits_only s = true -> (0 <= decimal_value s < 10 ^ Z.of_nat (String.length s))%Z.
Proof.
  induction s as [|c r IH]; intros H; [simpl; lia|].
  simpl in H. apply andb_prop in H as [Hc Hr]. specialize (IH Hr).
  destruct (is_digit_value c Hc) as [d Hd].
  assert (Hd' : (0 <= d <= 9)%Z).
  { unfold digit_value in Hd.
    destruct ((48 <=? Z.of_nat (nat_of_ascii c))%Z && (Z.of_nat (nat_of_ascii c) <=? 57)%Z)
      eqn:E; [|discriminate].
    apply andb_prop in E as [E1 E2]. apply Z.leb_le in E1, E2. injection Hd as <-. lia. }
  cbn [decimal_value String.length]. rewrite Hd. rewrite Nat2Z.inj_succ, Z.pow_succ_r by lia.
  nia.
Qed.

Lemma split_on_frac (a f : string) :
  digits_only a = true -> digits_only f = true ->
  split_on ":" (a ++ String "." f) = [(a ++ String "." f)%string].
Proof.
  intros Ha Hf. induction a as [|c r IH].
  - cbn [String.append split_on]. rewrite split_on_digits by exact Hf. reflexivity.
  - simpl in Ha. apply andb_prop in Ha as [Hc Hr].
    cbn [String.append split_on]. rewrite IH by exact Hr. rewrite digit_not_colon by exact Hc.
    reflexivity.
Qed.

Lemma js_Number_frac (a f : string) :
  all_digits a = true -> digits_only f = true ->
  exists q, js_Number (a ++ String "." f) = Some q /\ Qfloor q = decimal_value a.
Proof.
  intros Ha Hf. pose proof (all_digits_only a Ha) as Ha'.
  destruct (decimal_value_bound f Hf) as [Hf0 Hf1].
  pose proof (read_digits_stop a f "." 0 0 Ha' eq_refl) as Hr.
  destruct a as [|c r]; [discriminate|].
  exists (inject_Z (decimal_value (String c r))
          + inject_Z (decimal_value f) / inject_Z (10 ^ Z.of_nat (String.length f))).
  split.
  - cbn [String.append]. unfold js_Number.
    change (read_digits (String c (r ++ String "." f)) 0 0)
      with (read_digits (String c r ++ String "." f) 0 0).
    rewrite Hr. cbn [Ascii.eqb Bool.eqb ascii_dec]. rewrite read_digits_all by exact Hf.
    cbn -[Z.pow decimal_value String.length].
    replace (0 * 10 ^ Z.of_nat (String.length (String c r)) + decimal_value (String c r))%Z
      with (decimal_value (String c r)) by ring.
    replace (0 * 10 ^ Z.of_nat (String.length f) + decimal_value f)%Z
      with (decimal_value f) by ring.
    reflexivity.
  - set (P := (10 ^ Z.of_nat (String.length f))%Z) in *.
    set (A := decimal_value (String c r)).
    assert (HP : 0 < inject_Z P) by (change 0 with (inject_Z 0); rewrite <- Zlt_Qlt; lia).
    apply Qfloor_unique.
    + rewrite <- (Qplus_0_r (inject_Z A)) at 1.
      apply Qplus_le_compat; [apply Qle_refl|].
      apply Qle_shift_div_l; [exact HP|]. rewrite Qmult_0_l.
      change 0 with (inject_Z 0). rewrite <- Zle_Qle. lia.
    + rewrite inject_Z_plus. apply Qplus_lt_r.
      apply Qlt_shift_div_r; [exact HP|]. rewrite Qmult_1_l.
      rewrite <- Zlt_Qlt. lia.
Qed.

(** For a timemark H:MM:SS.F (decimal numerals, F possibly empty), the
    fraction of the seconds is dropped: the result is the one for
    H:MM:SS. *)
Theorem currentTimemarkToPercent_fraction (H MM SS F : string) (total : Z) :
  all_digits H = true -> all_digits MM = true -> all_digits SS = true ->
  digits_only F = true ->
  currentTimemarkToPercent (H ++ ":" ++ MM ++ ":" ++ SS ++ "." ++ F) total
  = currentTimemarkToPercent (H ++ ":" ++ MM ++ ":" ++ SS) total.
Proof.
  intros HH HM HS HF. unfold currentTimemarkToPercent. simpl String.append.
  rewrite (split_on_app H), (split_on_app MM) by (apply all_digits_only; assumption).
  rewrite (split_on_app H), (split_on_app MM) by (apply all_digits_only; assumption).
  rewrite (split_on_frac SS F) by first [assumption | apply all_digits_only; assumption].
  rewrite (split_on_digits SS) by (apply all_digits_only; assumption).
  unfold piece_number. cbn [nth_error].
  destruct (js_Number_frac SS F HS HF) as [q [Hq Hfl]].
  rewrite Hq, (js_Number_digits SS HS), Hfl, Qfloor_Z. reflexivity.
Qed.

Lemma currentTimemarkToPercent_fraction_witness :
  currentTimemarkToPercent ("0" ++ ":" ++ "01" ++ ":" ++ "59" ++ "." ++ "99") 7384
  = currentTimemarkToPercent ("0" ++ ":" ++ "01" ++ ":" ++ "59") 7384.
Proof. apply currentTimemarkToPercent_fraction; reflexivity. Defined.

Lemma split_on_length (c : ascii) (s : string) :
  List.length (split_on c s) = S (count_char c s).
Proof.
  induction s as [|a r IH]; [reflexivity|].
  cbn [split_on count_char]. destruct (Ascii.eqb a c).
  - cbn [List.length]. rewrite IH. reflexivity.
  - destruct (split_on c r) as [|p ps]; cbn [List.length] in *; lia.
Qed.

(** A timemark with fewer than two ':' gives no number (NaN): the piece
    [timemark[2]] is [undefined]. *)
Theorem currentTimemarkToPercent_short (timemark : string) (total : Z) :
  (count_char ":" timemark < 2)%nat -> currentTimemarkToPercent timemark total = None.
Proof.
  intros Hc. unfold currentTimemarkToPercent.
  assert (E : piece_number (split_on ":" timemark) 2 = None).
  { unfold piece_number. rewrite (proj2 (nth_error_None _ _)); [reflexivity|].
    rewrite split_on_length. lia. }
  rewrite E. destruct (piece_number (split_on ":" timemark) 0),
    (piece_number (split_on ":" timemark) 1); reflexivity.
Qed.

Lemma currentTimemarkToPercent_short_witness :
  currentTimemarkToPercent "01:02" 3800 = None.
Proof. apply currentTimemarkToPercent_short. vm_compute. lia. Defined.

(** ** One file: [converter] *)

(** On a platform other than Windows, without a truthy [-a] option, a valid
    AAX file is rejected with the bare missing-bytes message and no
    [ffmpeg] run is started. *)
Theorem converter_no_bytes (o : options) (loop : bool) (probe : promise probe_format)
  (file : file_state) (reg : registry) (run : ffmpeg_step -> promise unit) (md : metadata) :
  win32 o = false -> truthy (activationBytes o) = false ->
  snd (fetchMetadata probe file) = Resolved md ->
  converter o loop probe file reg run
  = (fst (fetchMetadata probe file), [], Rejected "Please provide activation bytes with -a <bytes>").
Proof.
  intros Hw Ht Hm. unfold converter.
  destruct (fetchMetadata probe file) as [lines m]. cbn [snd fst] in *. subst m.
  unfold fetchActivationBytes. rewrite Hw, Ht. cbn [negb orb].
  rewrite js_truthy_of_option, Ht. reflexivity.
Qed.

Lemma converter_no_bytes_witness :
  converter {| win32 := false; activationBytes := None; device := None |} true
    (Resolved sample_probe) sample_file sample_registry (fun _ => Resolved tt)
  = (fst (fetchMetadata (Resolved sample_probe) sample_file), [],
     Rejected "Please provide activation bytes with -a <bytes>").
Proof.
  apply (converter_no_bytes _ _ _ _ _ _
    (match snd (fetchMetadata (Resolved sample_probe) sample_file) with
     | Resolved md => md | _ => {| filetype := ""; artist := ""; md_title := ""; date := "";
                                    duration := ""; durationRaw := 0; checksum := "" |} end));
    vm_compute; reflexivity.
Defined.

(** [ffmpeg] only ever runs on a valid AAX file with non-empty activation
    bytes: the runs started are a non-empty prefix of [convertAudiobook]
    with those bytes and [durationRaw], [extractCoverImage], then
    [addLoopedImage] if [-l] was given, and each run but the last started
    has resolved. *)
Theorem converter_runs (o : options) (loop : bool) (probe : promise probe_format)
  (file : file_state) (reg : registry) (run : ffmpeg_step -> promise unit) :
  snd (fst (converter o loop probe file reg run)) <> [] ->
  exists md v n,
    snd (fetchMetadata probe file) = Resolved md /\
    fetchActivationBytes o reg = Resolved v /\ js_truthy v = true /\
    (1 <= n)%nat /\
    snd (fst (converter o loop probe file reg run))
      = firstn n (converter_runs_full loop (js_render v) (durationRaw md)) /\
    Forall (fun s => run s = Resolved tt) (removelast (snd (fst (converter o loop probe file reg run)))).
Proof.
  unfold converter.
  destruct (fetchMetadata probe file) as [lines [|md|e]]; cbn [snd fst];
    try (intro H; exfalso; apply H; reflexivity).
  destruct (fetchActivationBytes o reg) as [|bytes|e] eqn:B;
    try (intro H; exfalso; apply H; reflexivity).
  destruct (js_truthy bytes) eqn:T; cbn [negb];
    [|intro H; exfalso; apply H; reflexivity].
  intros _. exists md, bytes.
  unfold converter_runs_full.
  destruct (run (ConvertAudio (js_render bytes) (durationRaw md))) as [|[]|e] eqn:R1.
  - exists 1%nat. cbn. repeat split; try discriminate; auto.
  - destruct (run ExtractCover) as [|[]|e] eqn:R2.
    + exists 2%nat. destruct loop; cbn; repeat split; try discriminate; auto.
    + destruct loop.
      * exists 3%nat. cbn. repeat split; try discriminate; auto.
      * exists 2%nat. cbn. repeat split; try discriminate; auto.
    + exists 2%nat. destruct loop; cbn; repeat split; try discriminate; auto.
  - exists 1%nat. cbn. repeat split; try discriminate; auto.
Qed.

Lemma converter_runs_witness :
  snd (fst (converter sample_options true (Resolved sample_probe) sample_file sample_registry sample_run)) <> [] /\
  exists md v n,
    snd (fetchMetadata (Resolved sample_probe) sample_file) = Resolved md /\
    fetchActivationBytes sample_options sample_registry = Resolved v /\ js_truthy v = true /\
    (1 <= n)%nat /\
    snd (fst (converter sample_options true (Resolved sample_probe) sample_file sample_registry sample_run))
      = firstn n (converter_runs_full true (js_render v) (durationRaw md)) /\
    Forall (fun s => sample_run s = Resolved tt)
      (removelast (snd (fst (converter sample_options true (Resolved sample_probe) sample_file
                               sample_registry sample_run)))).
Proof.
  split; [vm_compute; discriminate|].
  apply converter_runs. vm_compute. discriminate.
Defined.

(** When the file is a valid AAX file, the activation bytes are truthy and
    every [ffmpeg] run resolves, [converter] starts all its runs,
    the looped image only with [-l], and resolves. *)
Theorem converter_success (o : options) (loop : bool) (probe : promise probe_format)
  (file : file_state) (reg : registry) (run : ffmpeg_step -> promise unit)
  (md : metadata) (v : js_value) :
  snd (fetchMetadata probe file) = Resolved md ->
  fetchActivationBytes o reg = Resolved v -> js_truthy v = true ->
  (forall s, run s = Resolved tt) ->
  converter o loop probe file reg run
  = (fst (fetchMetadata probe file), converter_runs_full loop (js_render v) (durationRaw md),
     Resolved tt).
Proof.
  intros Hm Hb Hne Hrun. unfold converter.
  destruct (fetchMetadata probe file) as [lines m]. cbn [snd fst] in *. subst m.
  rewrite Hb, Hne. cbn [negb]. rewrite !Hrun. unfold converter_runs_full.
  destruct loop; reflexivity.
Qed.

Lemma converter_success_witness :
  converter sample_options false (Resolved sample_probe) sample_file sample_registry
    (fun _ => Resolved tt)
  = (fst (fetchMetadata (Resolved sample_probe) sample_file),
     converter_runs_full false "1ceb00da" 7384, Resolved tt).
Proof.
  apply (converter_success _ _ _ _ _ _
    (match snd (fetchMetadata (Resolved sample_probe) sample_file) with
     | Resolved md => md | _ => {| filetype := ""; artist := ""; md_title := ""; date := "";
                                    duration := ""; durationRaw := 7384; checksum := "" |} end)
    (JString "1ceb00da"));
    [vm_compute; reflexivity | vm_compute; reflexivity | reflexivity | reflexivity].
Defined.

(** ** The [checksum] command *)

Lemma lower_ascii_hex (c : ascii) : is_hex c = true -> is_lower_hex (lower_ascii c) = true.
Proof. destruct c as [[] [] [] [] [] [] [] []]; vm_compute; congruence. Qed.

Lemma toLowerCase_hex (s : string) :
  all_chars is_hex s = true ->
  String.length (toLowerCase s) = String.length s /\ all_chars is_lower_hex (toLowerCase s) = true.
Proof.
  induction s as [|c s IH]; [split; reflexivity|].
  cbn [all_chars toLowerCase String.length]. intros H. apply andb_true_iff in H as [Hc Hs].
  destruct (IH Hs) as [IH1 IH2]. rewrite IH1, IH2, (lower_ascii_hex c Hc). split; reflexivity.
Qed.

Lemma bytesToHex_shape (l : list Z) :
  Forall byte_ok l ->
  String.length (bytesToHex l) = (2 * List.length l)%nat /\ all_chars is_hex (bytesToHex l) = true.
Proof.
  induction l as [|n l IH]; intros Hl; [split; reflexivity|].
  inversion Hl as [|? ? Hn Hrest]; subst.
  destruct (toHex_byte n Hn) as (a & b & Ht & Ha & Hb & _ & _).
  destruct (IH Hrest) as [IH1 IH2].
  rewrite bytesToHex_cons, Ht. cbn [String.append String.length all_chars List.length].
  rewrite IH1, IH2. unfold is_hex. rewrite Ha, Hb. split; [lia | reflexivity].
Qed.

Lemma fetchChecksum_bytes (file : file_state) (buf : list Z) :
  fetchChecksum file = Resolved buf ->
  (forall bytes, file = Contents bytes -> Forall byte_ok bytes) ->
  List.length buf = 20%nat /\ Forall byte_ok buf.
Proof.
  intros H Hok.
  assert (Z0 : Forall byte_ok (repeat 0%Z 20)).
  { apply Forall_forall. intros x Hx. apply repeat_spec in Hx. subst x. unfold byte_ok. lia. }
  destruct file as [e|e|bytes]; cbn [fetchChecksum] in H; injection H as <-;
    [split; [reflexivity | exact Z0] .. |].
  specialize (Hok bytes eq_refl).
  unfold fs_read_into. cbv zeta. fold (repeat 0%Z 20). rewrite skipn_repeat_Z. split.
  - rewrite length_app, repeat_length.
    pose proof (firstn_le_length 20 (skipn 653 bytes)). lia.
  - apply Forall_app. split.
    + apply Forall_firstn_Z. rewrite Forall_forall in *. intros x Hx. apply Hok.
      rewrite <- (firstn_skipn 653 bytes). apply in_or_app. now right.
    + apply Forall_forall. intros x Hx. apply repeat_spec in Hx. subst x. unfold byte_ok. lia.
Qed.

Lemma fetchMetadata_resolved_checksum (probe : promise probe_format) (file : file_state)
  (md : metadata) :
  snd (fetchMetadata probe file) = Resolved md ->
  exists buf, fetchChecksum file = Resolved buf /\ checksum md = toLowerCase (bytesToHex buf).
Proof.
  intros H. destruct (fetchChecksum_resolved file) as [buf Hbuf]. exists buf. split; [exact Hbuf|].
  unfold fetchMetadata in H. rewrite Hbuf in H.
  destruct probe as [|fmt|e]; try discriminate H.
  unfold build_metadata in H. destruct (format_tags fmt) as [tags|]; [|discriminate H].
  cbn [snd filetype] in H. destruct (String.eqb _ "aax"); [|discriminate H].
  injection H as <-. reflexivity.
Qed.

(** On a valid AAX file (any file whose bytes are bytes, or one that cannot
    be read), the [checksum] command prints the metadata line and then
    "Checksum for <file> is " followed by 40 lowercase hexadecimal digits. *)
Theorem checksum_action_line (inputFile : string) (probe : promise probe_format)
  (file : file_state) (md : metadata) :
  snd (fetchMetadata probe file) = Resolved md ->
  (forall bytes, file = Contents bytes -> Forall byte_ok bytes) ->
  exists c,
    checksum_action inputFile probe file
    = List.app (map Stdout (fst (fetchMetadata probe file)))
        [Stdout ("Checksum for " ++ inputFile ++ " is " ++ c)]
    /\ String.length c = 40%nat /\ all_chars is_lower_hex c = true.
Proof.
  intros Hm Hok.
  destruct (fetchMetadata_resolved_checksum probe file md Hm) as (buf & Hbuf & Hc).
  destruct (fetchChecksum_bytes file buf Hbuf Hok) as [Hlen Hbytes].
  destruct (bytesToHex_shape buf Hbytes) as [L1 L2].
  destruct (toLowerCase_hex _ L2) as [L3 L4].
  exists (checksum md). unfold checksum_action.
  destruct (fetchMetadata probe file) as [out r]. cbn [snd fst] in *. subst r.
  split; [reflexivity|]. rewrite Hc, L3, L1, Hlen. split; [reflexivity | exact L4].
Qed.

Lemma checksum_action_line_witness :
  exists c,
    checksum_action "book.aax" (Resolved sample_probe) sample_file
    = List.app (map Stdout (fst (fetchMetadata (Resolved sample_probe) sample_file)))
        [Stdout ("Checksum for " ++ "book.aax" ++ " is " ++ c)]
    /\ String.length c = 40%nat /\ all_chars is_lower_hex c = true.
Proof.
  apply (checksum_action_line _ _ _
    (match snd (fetchMetadata (Resolved sample_probe) sample_file) with
     | Resolved md => md | _ => {| filetype := ""; artist := ""; md_title := ""; date := "";
                                    duration := ""; durationRaw := 0; checksum := "" |} end)).
  - vm_compute. reflexivity.
  - intros bytes E. unfold sample_file in E. injection E as <-.
    repeat constructor; unfold byte_ok; lia.
Defined.

(** ** Property names as device numbers *)

(** On Windows without an explicit secret, [-d length] is no device-not-found
    error: [devices[program.device]] is the array's length, and
    [fetchActivationBytes] resolves with that number. *)
Theorem fetchActivationBytes_device_length (o : options) (reg : registry) (devices : list string) :
  win32 o = true -> truthy (activationBytes o) = false ->
  fetchActivationBytesFromDevices reg = Resolved devices ->
  device o = Some "length" ->
  fetchActivationBytes o reg = Resolved (JNumber (List.length devices)).
Proof.
  intros Hw Ha Hd Hdev.
  rewrite (fetchActivationBytes_consult o reg Hw Ha), Hd. cbn [then_]. unfold pick_device.
  rewrite Hdev. cbn [array_get]. change (canonical_index "length") with (@None nat).
  cbn iota beta. change (String.eqb "length" "length") with true. cbn iota.
  destruct devices as [|d rest]; [now elim (devices_nonempty reg [] Hd)|].
  reflexivity.
Qed.

Lemma fetchActivationBytes_device_length_witness :
  fetchActivationBytes {| win32 := true; activationBytes := None; device := Some "length" |}
    sample_registry = Resolved (JNumber 2).
Proof.
  apply (fetchActivationBytes_device_length _ _ ["04030201"; "01000000"]);
    [reflexivity | reflexivity | vm_compute; reflexivity | reflexivity].
Defined.
